(** * HomePass backend: CSV import and image-URL resolution (src/api.py)

    A shallow embedding of the parts of [src/api.py] that carry logic:
    [_resolve_image_url], [_get_image_paths], [_attach_images],
    [ensure_user_exists], [insert_apartments_from_csv], [get_user] and
    [import_csv], together with the pieces of the Python library they
    call ([str] methods, [float], [int], [decimal.Decimal],
    [pathlib.PurePosixPath]).

    Conventions.
    - A Python [str] is a list of code points.  The embedding covers the
      code points below 256, so a character is an [ascii] and a [str] is a
      [list ascii]; on that range the tables of white space, of lower
      case and of decimal digits used below are the complete ones.
    - [float] is IEEE 754 binary64 with correct rounding; [Decimal] keeps
      the digits as written, within the exponent range of the C
      implementation on a 64-bit platform.
    - Paths are POSIX paths, as the constants of the module are.
    - A [csv.DictReader] row is a dictionary from column names to cells; a
      cell may be [None] (a short line is padded with [None]).  A CSV file
      is the sequence of its rows, in file order; reading it may fail
      before or between rows.
    - The database is a record of three tables, with the answer of the
      server to the insertion of a listing (the column types and
      constraints of the table are not in the repository).  A stored
      listing is written with the values the statement was given.  A
      cursor works on the tables of its transaction; [commit] publishes
      them, and a request that raises leaves the committed tables as they
      were, while identifiers drawn for new listings stay drawn. *)

From Stdlib Require Import ZArith QArith Ascii String.
From stdpp Require Import base option list strings gmap sorting.

Local Open Scope Z_scope.
Local Open Scope list_scope.

(** ** Python [str] *)

Abbreviation str := (list ascii).

(** String literals, written [$"..."]. *)
Notation "$ s" := (list_ascii_of_string s) (at level 1, s at level 0, format "$ s").

Module PyStr.

Definition ord (c : ascii) : Z := Z.of_N (N_of_ascii c).

(** [str.isspace] of one character: the code points below 256 with the
    Unicode white-space property. *)
Definition isspace (c : ascii) : bool :=
  let n := ord c in
  ((9 <=? n) && (n <=? 13)) || ((28 <=? n) && (n <=? 32))
  || (n =? 133) || (n =? 160).

Definition isdigit (c : ascii) : bool :=
  let n := ord c in (48 <=? n) && (n <=? 57).

Definition digit_val (c : ascii) : Z := ord c - 48.

(** Truth value of a [str]: non-empty. *)
Definition truthy (s : str) : bool :=
  match s with [] => false | _ :: _ => true end.

Fixpoint lstrip_by (p : ascii -> bool) (s : str) : str :=
  match s with
  | [] => []
  | c :: s' => if p c then lstrip_by p s' else s
  end.

Definition rstrip_by (p : ascii -> bool) (s : str) : str :=
  rev (lstrip_by p (rev s)).

(** [s.strip()] *)
Definition strip (s : str) : str := rstrip_by isspace (lstrip_by isspace s).

(** [s.replace(c, "")] for a one-character [c]. *)
Definition remove_char (c : ascii) (s : str) : str :=
  filter (fun x => x <> c) s.

(** [s.split(sep)] for a one-character [sep]. *)
Fixpoint split (sep : ascii) (s : str) : list str :=
  match s with
  | [] => [[]]
  | c :: s' =>
      if decide (c = sep) then [] :: split sep s'
      else match split sep s' with
           | [] => [[c]]
           | h :: t => (c :: h) :: t
           end
  end.

(** [sep.join(parts)] *)
Fixpoint join (sep : str) (parts : list str) : str :=
  match parts with
  | [] => []
  | [p] => p
  | p :: ps => p ++ sep ++ join sep ps
  end.

(** [str.lower] of one character. *)
Definition lower_char (c : ascii) : ascii :=
  let n := ord c in
  if ((65 <=? n) && (n <=? 90))
     || ((192 <=? n) && (n <=? 222) && negb (n =? 215))
  then ascii_of_N (Z.to_N (n + 32)) else c.

Definition lower (s : str) : str := map lower_char s.

(** Longest prefix of decimal digits, and the rest. *)
Fixpoint span_digits (s : str) : str * str :=
  match s with
  | [] => ([], [])
  | c :: s' =>
      if isdigit c then let '(d, r) := span_digits s' in (c :: d, r)
      else ([], s)
  end.

(** Value of a string of decimal digits ([int(ds)], 0 for the empty
    string). *)
Definition digits_val (ds : str) : Z :=
  fold_left (fun acc c => 10 * acc + digit_val c) ds 0.

End PyStr.

(** ** Exceptions and results *)

(** The exception classes the module meets.  [DatabaseError] is
    [psycopg2.DatabaseError] with its subclasses ([DataError],
    [IntegrityError]); [OtherError] is a class that no handler of the
    module names ([IsADirectoryError], [UnicodeDecodeError], [csv.Error],
    ...). *)
Inductive exn : Type :=
  | ValueError
  | TypeError
  | OverflowError
  | InvalidOperation
  | FileNotFoundError
  | HTTPException (status_code : Z) (detail : str)
  | DatabaseError
  | OtherError (name : string).

Inductive result (A : Type) : Type :=
  | Ok (a : A)
  | Raise (e : exn).
Arguments Ok {A} a.
Arguments Raise {A} e.

(** ** Numeric literals shared by [float] and [Decimal] *)

Module PyNum.
Import PyStr.

(** An optional sign; [true] stands for [-]. *)
Definition parse_sign (s : str) : bool * str :=
  match s with
  | c :: r =>
      if decide (c = "-"%char) then (true, r)
      else if decide (c = "+"%char) then (false, r)
      else (false, s)
  | [] => (false, s)
  end.

Definition is_e (c : ascii) : bool :=
  bool_decide (c = "e"%char) || bool_decide (c = "E"%char).

(** The whole of [s] as [digits [. [digits]] [exponent]] or
    [. digits [exponent]], with [exponent ::= (e|E) [sign] digits]:
    the integer digits, the fraction digits and the exponent. *)
Definition parse_decimal (s : str) : option (str * str * Z) :=
  let '(ip, r1) := span_digits s in
  let '(fp, r2) :=
    match r1 with
    | c :: r => if decide (c = "."%char) then span_digits r else ([], r1)
    | [] => ([], r1)
    end in
  if negb (truthy ip) && negb (truthy fp) then None
  else match r2 with
       | [] => Some (ip, fp, 0)
       | c :: r3 =>
           if is_e c then
             let '(neg, r4) := parse_sign r3 in
             let '(ed, r5) := span_digits r4 in
             if truthy ed && negb (truthy r5)
             then Some (ip, fp, if neg then - digits_val ed else digits_val ed)
             else None
           else None
       end.

End PyNum.

(** ** [float(s)] and [int(x)] *)

Module PyFloat.
Import PyStr PyNum.

(** An IEEE 754 binary64 value: not a number, an infinity, or the finite
    value [(-1)^neg * m * 2^e] with [0 <= m < 2^53]. *)
Inductive float : Type :=
  | Nan
  | Inf (neg : bool)
  | Fin (neg : bool) (m : Z) (e : Z).

(** Is [num / den >= 2^k]?  ([0 <= num], [0 < den]) *)
Definition ge_pow2 (num den k : Z) : bool :=
  if 0 <=? k then den * 2 ^ k <=? num else den <=? num * 2 ^ (- k).

(** Round [num / den] ([0 <= num], [0 < den]) to the nearest binary64
    value, ties to even; [None] when the result overflows. *)
Definition round_binary64 (num den : Z) : option (Z * Z) :=
  if num =? 0 then Some (0, 0)
  else
    let l := Z.log2 num - Z.log2 den in
    let fl := if ge_pow2 num den l then l else l - 1 in
    let e := Z.max (fl - 52) (-1074) in
    let n := if 0 <=? e then num else num * 2 ^ (- e) in
    let d := if 0 <=? e then den * 2 ^ e else den in
    let q := n / d in
    let r := n mod d in
    let m := if 2 * r <? d then q
             else if d <? 2 * r then q + 1
             else if Z.even q then q else q + 1 in
    let '(m, e) := if m =? 2 ^ 53 then (2 ^ 52, e + 1) else (m, e) in
    if 971 <? e then None else Some (m, e).

(** The code points of [s] as the ASCII text the parser reads: white
    space outside ASCII becomes a blank, any other character from 127
    up stops the conversion (no decimal digit lies in 127..255). *)
Fixpoint to_ascii (s : str) : option str :=
  match s with
  | [] => Some []
  | c :: s' =>
      if ord c <? 127 then cons c <$> to_ascii s'
      else if isspace c then cons " "%char <$> to_ascii s'
      else None
  end.

(** Underscores are dropped; each must stand between two digits. *)
Fixpoint drop_underscores (prev : ascii) (s : str) : option str :=
  match s with
  | [] => if decide (prev = "_"%char) then None else Some []
  | c :: s' =>
      if decide (c = "_"%char) then
        if isdigit prev then drop_underscores c s' else None
      else if bool_decide (prev = "_"%char) && negb (isdigit c) then None
      else cons c <$> drop_underscores c s'
  end.

(** White space of the C locale. *)
Definition c_isspace (c : ascii) : bool :=
  let n := ord c in ((9 <=? n) && (n <=? 13)) || (n =? 32).

Definition finite_of_literal (neg : bool) (ip fp : str) (e : Z) : float :=
  let n := digits_val (ip ++ fp) in
  let x := e - Z.of_nat (length fp) in
  let num := if 0 <=? x then n * 10 ^ x else n in
  let den := if 0 <=? x then 1 else 10 ^ (- x) in
  match round_binary64 num den with
  | Some (m, e2) => Fin neg m e2
  | None => Inf neg
  end.

(** [float(s)] for a [str]; the only exception is [ValueError]. *)
Definition of_str (s : str) : result float :=
  match to_ascii s ≫= drop_underscores "000"%char with
  | None => Raise ValueError
  | Some t =>
      let t := rstrip_by c_isspace (lstrip_by c_isspace t) in
      let '(neg, r) := parse_sign t in
      match parse_decimal r with
      | Some (ip, fp, e) => Ok (finite_of_literal neg ip fp e)
      | None =>
          let w := lower r in
          if bool_decide (w = $"inf") || bool_decide (w = $"infinity")
          then Ok (Inf neg)
          else if bool_decide (w = $"nan") then Ok Nan
          else Raise ValueError
      end
  end.

(** [int(x)] for a float: truncation towards zero. *)
Definition to_int (x : float) : result Z :=
  match x with
  | Nan => Raise ValueError
  | Inf _ => Raise OverflowError
  | Fin neg m e =>
      let a := if 0 <=? e then m * 2 ^ e else m / 2 ^ (- e) in
      Ok (if neg then - a else a)
  end.

End PyFloat.

(** [int(float(s))] *)
Definition int_float (s : str) : result Z :=
  match PyFloat.of_str s with
  | Ok x => PyFloat.to_int x
  | Raise e => Raise e
  end.

(** ** [decimal.Decimal(s)] *)

Module PyDecimal.
Import PyStr PyNum.

(** A [Decimal]: sign, coefficient and exponent of a finite number
    (value [(-1)^neg * coeff * 10^exp], kept as written: no rounding,
    trailing zeros preserved), an infinity, or a quiet or signaling NaN
    with its diagnostic digits. *)
Inductive Decimal : Type :=
  | Finite (neg : bool) (coeff : Z) (exp : Z)
  | Infinity (neg : bool)
  | NaN (neg : bool) (signaling : bool) (diag : Z).

(** [NaN] or [sNaN], in any case, followed by digits only. *)
Definition parse_nan (r : str) : option (bool * Z) :=
  let w := lower r in
  let go (signaling : bool) (rest : str) :=
    let '(d, r') := span_digits rest in
    if truthy r' then None else Some (signaling, digits_val d) in
  if bool_decide (take 3 w = $"nan") then go false (drop 3 w)
  else if bool_decide (take 4 w = $"snan") then go true (drop 4 w)
  else None.

(** Limits of the C implementation on a 64-bit platform
    ([decimal.MAX_EMAX], [decimal.MIN_ETINY]). *)
Definition MAX_EMAX : Z := 999999999999999999.
Definition MIN_ETINY : Z := -1999999999999999997.

(** Number of digits of a coefficient written as [ds]: leading zeros do
    not count, and zero has one digit. *)
Definition num_digits (ds : str) : Z :=
  Z.max 1 (Z.of_nat (length (lstrip_by (fun c => bool_decide (c = "0"%char)) ds))).

(** A finite number is representable when its adjusted exponent is at
    most [MAX_EMAX] and its exponent at least [MIN_ETINY]. *)
Definition in_range (ds : str) (exp : Z) : bool :=
  (exp + num_digits ds - 1 <=? MAX_EMAX) && (MIN_ETINY <=? exp).

(** [Decimal(s)] for a [str]: surrounding white space and all
    underscores are removed, then the whole text must be a numeric
    string that is representable without rounding; otherwise
    [InvalidOperation] is raised. *)
Definition of_str (s : str) : result Decimal :=
  let t := remove_char "_" (strip s) in
  let '(neg, r) := parse_sign t in
  match parse_decimal r with
  | Some (ip, fp, e) =>
      let exp := e - Z.of_nat (length fp) in
      if in_range (ip ++ fp) exp then Ok (Finite neg (digits_val (ip ++ fp)) exp)
      else Raise InvalidOperation
  | None =>
      let w := lower r in
      if bool_decide (w = $"inf") || bool_decide (w = $"infinity")
      then Ok (Infinity neg)
      else match parse_nan r with
           | Some (sg, d) => Ok (NaN neg sg d)
           | None => Raise InvalidOperation
           end
  end.

(** The rational number a finite [Decimal] denotes. *)
Definition to_Q (neg : bool) (coeff exp : Z) : Q :=
  let a := if 0 <=? exp then inject_Z (coeff * 10 ^ exp)
           else Qmake coeff (Z.to_pos (10 ^ (- exp))) in
  if neg then Qopp a else a.

End PyDecimal.

(** ** [pathlib.PurePosixPath] *)

Module PurePath.
Import PyStr.

(** A parsed path: the root ([""], ["/"] or ["//"]) and the components
    after it. *)
Record PurePosixPath : Type := mkPath { root : str; parts : list str }.

(** Split off the root: one slash, except that exactly two leading
    slashes are kept as they are. *)
Definition splitroot (part : str) : str * str :=
  match part with
  | c :: _ =>
      if decide (c = "/"%char) then
        let stripped := lstrip_by (fun x => bool_decide (x = "/"%char)) part in
        if (length part - length stripped =? 2)%nat
        then ($"//", stripped) else ($"/", stripped)
      else ([], part)
  | [] => ([], part)
  end.

(** [PurePosixPath(s)]: empty components and ["."] components are
    dropped. *)
Definition Path (s : str) : PurePosixPath :=
  let '(r, rel) := splitroot s in
  mkPath r (filter (fun x => x <> [] /\ x <> $".") (split "/" rel)).

Definition is_absolute (p : PurePosixPath) : bool := truthy (root p).

(** Drive (always empty here), root and components, as compared by
    [relative_to]. *)
Definition abs_parts (p : PurePosixPath) : list str :=
  if truthy (root p) then [] :: root p :: parts p else parts p.

(** [p.relative_to(other)]; [None] stands for the [ValueError] raised
    when [p] does not lie under [other]. *)
Definition relative_to (p other : PurePosixPath) : option PurePosixPath :=
  let a := abs_parts p in
  let t := abs_parts other in
  let n := length t in
  if (if (n =? 0)%nat then truthy (root p)
      else negb (bool_decide (take n a = t)))
  then None
  else Some (mkPath (if (n =? 1)%nat then root p else []) (drop n a)).

(** [str(p)], which is also [p.as_posix()] on POSIX. *)
Definition as_posix (p : PurePosixPath) : str :=
  let s := if truthy (root p) then root p ++ join $"/" (parts p)
           else join $"/" (parts p) in
  if truthy s then s else $".".

End PurePath.

(** ** The service: data model *)

Module Api.
Import PyStr PurePath.

Definition PICTURES_DEST_ROOT : PurePosixPath := Path $"/srv/homepass".

(** [base / name] for a relative one-component [name]. *)
Definition truediv (base : PurePosixPath) (name : str) : PurePosixPath :=
  mkPath (root base) (parts base ++ parts (Path name)).

Definition PICTURES_ROOT : PurePosixPath := truediv PICTURES_DEST_ROOT $"pictures".
Definition SERVER_CSV : PurePosixPath := truediv PICTURES_DEST_ROOT $"homes.csv".
Definition PICTURES_URL_BASE : str := $"http://jumbo.galagen.net:2205/pictures".

(** Table [users]. *)
Record User : Type := mkUser {
  user_id : Z;
  user_wallet : str;
  user_name : str;
  user_surname : str
}.

(** Table [apartaments].  The columns [area], [cost], [tokens] and
    [type] may be null ([ApartmentOut] declares them optional). *)
Record Apartment : Type := mkApartment {
  apt_id : Z;
  apt_user_id : Z;
  apt_name : str;
  apt_adress : str;
  apt_area : option Z;
  apt_cost : option PyDecimal.Decimal;
  apt_tokens : option Z;
  apt_type : option str
}.

(** Table [pictures]; [id] is its key and [is_primary] is not null. *)
Record Picture : Type := mkPicture {
  pic_id : Z;
  pic_apartment_id : Z;
  pic_file_path : option str;
  pic_is_primary : bool
}.

(** What the server answers to the insertion of a row: it stores the
    row, or rejects it (a value out of the range of its column, a
    violated constraint), having drawn an identifier for it or not. *)
Inductive verdict : Type :=
  | Accepted
  | Rejected (id_drawn : bool).

(** Modelled from the spec: the schema is not part of the repository.
    The store holds the three tables; identifiers of new listings are
    assigned by storage, here from a counter that a rollback does not
    reset; [apartaments_check] stands for the column types and the
    constraints of the table [apartaments]. *)
Record Database : Type := mkDatabase {
  users : list User;
  apartaments : list Apartment;
  pictures : list Picture;
  apartaments_next_id : Z;
  apartaments_check : Apartment -> verdict
}.

(** A row of [csv.DictReader]: column name to cell. *)
Abbreviation Row := (gmap string (option str)).

(** The files the service can read.  Applied to the text of a path, a
    file system gives the rows of the CSV file stored there, if the path
    exists; [fs_failure] tells whether reading that file fails ([open]
    on a directory, bytes that are not UTF-8, a field beyond the limit of
    the [csv] module), after how many rows, and with which exception. *)
Record FileSystem : Type := mkFileSystem {
  fs_rows :> str -> option (list Row);
  fs_failure : str -> option (nat * string)
}.

(** A listing as returned by the read queries, with the [images] key
    once [_attach_images] has set it. *)
Record ApartmentRow : Type := mkApartmentRow {
  row_id : Z;
  row_name : str;
  row_address : str;
  row_area : option Z;
  row_cost : option PyDecimal.Decimal;
  row_tokens : option Z;
  row_type : option str;
  row_images : option (list str)
}.

(** ** Image URL resolver *)

(** [value] of type [str | None] seen as a condition. *)
Definition truthy_opt (value : option str) : bool :=
  match value with Some s => truthy s | None => false end.

Definition _resolve_image_url (value : option str) : option str :=
  match value with
  | None => None
  | Some v =>
      if negb (truthy v) then None
      else
        let candidate := Path v in
        let candidate :=
          if is_absolute candidate then
            match relative_to candidate PICTURES_ROOT with
            | Some c => c
            | None => candidate
            end
          else candidate in
        let parts := filter (fun part => truthy part = true)
                            (split "/" (as_posix candidate)) in
        let parts :=
          match parts with
          | p0 :: rest =>
              if bool_decide (lower p0 = $"pictures") then rest else parts
          | [] => parts
          end in
        match parts with
        | [] => None
        | _ :: _ =>
            let normalized := join $"/" parts in
            Some (PICTURES_URL_BASE ++ $"/" ++ normalized)
        end
  end.

(** ** Row enricher *)

(** [ORDER BY is_primary DESC, id] *)
Definition picture_leb (a b : Picture) : bool :=
  match pic_is_primary a, pic_is_primary b with
  | true, false => true
  | false, true => false
  | _, _ => pic_id a <=? pic_id b
  end.

Definition picture_le (a b : Picture) : Prop := picture_leb a b = true.

#[global] Instance picture_le_dec : RelDecision picture_le :=
  fun a b => decide (picture_leb a b = true).

Definition _get_image_paths (db : Database) (apartment_id : Z) : list (option str) :=
  let selected := filter (fun p => pic_apartment_id p = apartment_id) (pictures db) in
  pic_file_path <$> merge_sort picture_le selected.

Definition set_images (row : ApartmentRow) (imgs : list str) : ApartmentRow :=
  mkApartmentRow (row_id row) (row_name row) (row_address row) (row_area row)
                 (row_cost row) (row_tokens row) (row_type row) (Some imgs).

Definition _attach_images (db : Database) (rows : list ApartmentRow) : list ApartmentRow :=
  (fun row =>
     let raw_paths := _get_image_paths db (row_id row) in
     set_images row
       (omap (fun r => let p := _resolve_image_url r in
                       if truthy_opt p then p else None) raw_paths))
  <$> rows.

(** ** Work on a cursor *)

(** A computation on a cursor: it reads and changes the tables of the
    running transaction and returns a value or raises. *)
Definition Cur (A : Type) : Type := Database -> Database * result A.

Definition ret {A} (a : A) : Cur A := fun db => (db, Ok a).
Definition raise {A} (e : exn) : Cur A := fun db => (db, Raise e).
Definition bind {A B} (m : Cur A) (k : A -> Cur B) : Cur B :=
  fun db =>
    match m db with
    | (db', Ok a) => k a db'
    | (db', Raise e) => (db', Raise e)
    end.

Notation "x <- m ;; k" := (bind m (fun x => k))
  (at level 100, m at next level, right associativity).
Notation "m ;;; k" := (bind m (fun _ => k))
  (at level 100, right associativity).

(** [SELECT 1 FROM apartaments WHERE name = %s AND adress = %s AND
    user_id = %s], followed by [fetchone()] used as a condition. *)
Definition same_key (name address : str) (uid : Z) (a : Apartment) : Prop :=
  apt_name a = name /\ apt_adress a = address /\ apt_user_id a = uid.

(** [psycopg2] refuses a [str] parameter that holds a NUL character:
    [cur.execute] raises [ValueError] before anything is sent. *)
Definition has_nul (s : str) : bool := bool_decide ("000"%char ∈ s).

Definition select_listing (name address : str) (uid : Z) : Cur bool :=
  fun db =>
    if has_nul name || has_nul address then (db, Raise ValueError)
    else (db, Ok (bool_decide (Exists (same_key name address uid) (apartaments db)))).

(** The store after an identifier was drawn. *)
Definition draw_id (db : Database) : Database :=
  mkDatabase (users db) (apartaments db) (pictures db)
             (apartaments_next_id db + 1) (apartaments_check db).

(** [INSERT INTO apartaments (user_id, name, adress, area, cost, tokens,
    type) VALUES (...)] *)
Definition insert_listing (uid : Z) (name address : str) (area : Z)
    (cost : PyDecimal.Decimal) (tokens : Z) (type : str) : Cur unit :=
  fun db =>
    if has_nul name || has_nul address || has_nul type then (db, Raise ValueError)
    else
      let a := mkApartment (apartaments_next_id db) uid name address
                           (Some area) (Some cost) (Some tokens) (Some type) in
      match apartaments_check db a with
      | Accepted =>
          (mkDatabase (users db) (apartaments db ++ [a]) (pictures db)
                      (apartaments_next_id db + 1) (apartaments_check db), Ok tt)
      | Rejected id_drawn =>
          (if id_drawn then draw_id db else db, Raise DatabaseError)
      end.

(** ** CSV import pipeline *)

(** [row.get(k)] *)
Definition get (row : Row) (k : string) : option str :=
  match row !! k with Some cell => cell | None => None end.
Arguments get row k%_string.

(** [a or b] where [a] is a cell and [b] a [str].  A chain
    [a or b or c or ""] yields its first true operand, else the last one,
    so it is written here as [or_str a (or_str b (or_str c ""))]. *)
Definition or_str (a : option str) (b : str) : str :=
  match a with
  | Some s => if truthy s then s else b
  | None => b
  end.

Definition name_of (row : Row) : str :=
  strip (or_str (get row "title") (or_str (get row "name") (or_str (get row "url") $""))).

Definition address_of (row : Row) : str :=
  strip (or_str (get row "address") (or_str (get row "adress") $"")).

Definition area_raw_of (row : Row) : str :=
  strip (remove_char "," (or_str (get row "area_m2") (or_str (get row "area") $""))).

Definition price_raw_of (row : Row) : str :=
  strip (remove_char "," (or_str (get row "price_usd") (or_str (get row "cost") $""))).

Definition type_of (row : Row) : str :=
  strip (or_str (get row "type") $"Flat").

(** The part of the loop body from the cost field on (lines 151-176);
    returning [inserted] unchanged is [continue]. *)
Definition row_from_cost (uid : Z) (row : Row) (name address : str)
    (area_val : Z) (inserted : Z) : Cur Z :=
  match PyDecimal.of_str (price_raw_of row) with
  | Raise InvalidOperation | Raise TypeError => ret inserted
  | Raise e => raise e
  | Ok cost_val =>
      let apt_type := type_of row in
      found <- select_listing name address uid ;;
      if (found : bool) then ret inserted
      else
        insert_listing uid name address area_val cost_val 0 apt_type ;;;
        ret (inserted + 1)
  end.

(** One iteration of the loop over the rows (lines 140-176). *)
Definition row_step (uid : Z) (row : Row) (inserted : Z) : Cur Z :=
  let name := name_of row in
  let address := address_of row in
  if negb (truthy name) || negb (truthy address) then ret inserted
  else
    match int_float (area_raw_of row) with
    | Raise ValueError | Raise TypeError => ret inserted
    | Raise e => raise e
    | Ok area_val => row_from_cost uid row name address area_val inserted
    end.

Fixpoint for_rows (uid : Z) (rows : list Row) (inserted : Z) : Cur Z :=
  match rows with
  | [] => ret inserted
  | row :: rows' =>
      inserted' <- row_step uid row inserted ;;
      for_rows uid rows' inserted'
  end.

Definition insert_apartments_from_csv (fs : FileSystem)
    (csv_path : PurePosixPath) (uid : Z) : Cur Z :=
  match fs (as_posix csv_path) with
  | None => raise FileNotFoundError
  | Some rows =>
      match fs_failure fs (as_posix csv_path) with
      | None => for_rows uid rows 0
      | Some (n, name) =>
          for_rows uid (take n rows) 0 ;;; raise (OtherError name)
      end
  end.

(** ** Handlers *)

Definition ensure_user_exists (db : Database) (uid : Z) : bool :=
  bool_decide (Exists (fun u => user_id u = uid) (users db)).

Definition get_user (db : Database) (uid : Z) : result User :=
  match filter (fun u => user_id u = uid) (users db) with
  | row :: _ => Ok row
  | [] => Raise (HTTPException 404 $"User not found")
  end.

Record ImportResponse : Type := mkImportResponse {
  source_csv : str;
  inserted_apartments : Z
}.

(** The committed store when the transaction that led from [db] to [db']
    is not committed: the tables of [db], the identifiers drawn so far. *)
Definition rollback (db db' : Database) : Database :=
  mkDatabase (users db) (apartaments db) (pictures db)
             (apartaments_next_id db') (apartaments_check db).

(** [import_csv]: the committed database after the request and the
    response.  The transaction is committed only after the import
    returned; when the handler raises, the connection is closed without
    a commit. *)
Definition import_csv (fs : FileSystem) (uid : Z) (csv_path : option str)
    (db : Database) : Database * result ImportResponse :=
  if negb (ensure_user_exists db uid) then
    (db, Raise (HTTPException 404 $"User not found"))
  else
    let path := match csv_path with
                | Some v => if truthy v then Path v else SERVER_CSV
                | None => SERVER_CSV
                end in
    if negb (bool_decide (is_Some (fs (as_posix path)))) then
      (db, Raise (HTTPException 404 (as_posix path ++ $" not found")))
    else
      match insert_apartments_from_csv fs path uid db with
      | (db', Ok inserted) => (db', Ok (mkImportResponse (as_posix path) inserted))
      | (db', Raise e) => (rollback db db', Raise e)
      end.

End Api.

Module Spec.
Import PyStr PurePath Api.

(** "fallback columns tried in order": the first cell that holds a
    non-empty string, the empty string when there is none. *)
Fixpoint first_nonempty (cells : list (option str)) : str :=
  match cells with
  | [] => []
  | Some (c :: s) :: _ => c :: s
  | _ :: cells' => first_nonempty cells'
  end.

(** The listing the import builds from a row. *)
Definition listing_of (db : Database) (uid : Z) (row : Row) (area : Z)
    (cost : PyDecimal.Decimal) : Apartment :=
  mkApartment (apartaments_next_id db) uid (name_of row) (address_of row)
              (Some area) (Some cost) (Some 0) (Some (type_of row)).

Definition add_listing (db : Database) (a : Apartment) : Database :=
  mkDatabase (users db) (apartaments db ++ [a]) (pictures db)
             (apartaments_next_id db + 1) (apartaments_check db).

(** What one iteration of the import loop can do with a row. *)
Inductive row_outcome (uid : Z) (row : Row) (k : Z) (db : Database)
    : Database * result Z -> Prop :=
  | ro_blank :
      name_of row = [] \/ address_of row = [] ->
      row_outcome uid row k db (db, Ok k)
  | ro_bad_area :
      name_of row <> [] -> address_of row <> [] ->
      int_float (area_raw_of row) = Raise ValueError ->
      row_outcome uid row k db (db, Ok k)
  | ro_overflow :
      name_of row <> [] -> address_of row <> [] ->
      int_float (area_raw_of row) = Raise OverflowError ->
      row_outcome uid row k db (db, Raise OverflowError)
  | ro_bad_cost area :
      name_of row <> [] -> address_of row <> [] ->
      int_float (area_raw_of row) = Ok area ->
      PyDecimal.of_str (price_raw_of row) = Raise InvalidOperation ->
      row_outcome uid row k db (db, Ok k)
  | ro_nul_key area cost :
      name_of row <> [] -> address_of row <> [] ->
      int_float (area_raw_of row) = Ok area ->
      PyDecimal.of_str (price_raw_of row) = Ok cost ->
      has_nul (name_of row) = true \/ has_nul (address_of row) = true ->
      row_outcome uid row k db (db, Raise ValueError)
  | ro_duplicate area cost :
      name_of row <> [] -> address_of row <> [] ->
      int_float (area_raw_of row) = Ok area ->
      PyDecimal.of_str (price_raw_of row) = Ok cost ->
      has_nul (name_of row) = false -> has_nul (address_of row) = false ->
      Exists (same_key (name_of row) (address_of row) uid) (apartaments db) ->
      row_outcome uid row k db (db, Ok k)
  | ro_nul_type area cost :
      name_of row <> [] -> address_of row <> [] ->
      int_float (area_raw_of row) = Ok area ->
      PyDecimal.of_str (price_raw_of row) = Ok cost ->
      has_nul (name_of row) = false -> has_nul (address_of row) = false ->
      ~ Exists (same_key (name_of row) (address_of row) uid) (apartaments db) ->
      has_nul (type_of row) = true ->
      row_outcome uid row k db (db, Raise ValueError)
  | ro_rejected area cost id_drawn :
      name_of row <> [] -> address_of row <> [] ->
      int_float (area_raw_of row) = Ok area ->
      PyDecimal.of_str (price_raw_of row) = Ok cost ->
      has_nul (name_of row) = false -> has_nul (address_of row) = false ->
      ~ Exists (same_key (name_of row) (address_of row) uid) (apartaments db) ->
      has_nul (type_of row) = false ->
      apartaments_check db (listing_of db uid row area cost) = Rejected id_drawn ->
      row_outcome uid row k db
        (if id_drawn then draw_id db else db, Raise DatabaseError)
  | ro_insert area cost :
      name_of row <> [] -> address_of row <> [] ->
      int_float (area_raw_of row) = Ok area ->
      PyDecimal.of_str (price_raw_of row) = Ok cost ->
      has_nul (name_of row) = false -> has_nul (address_of row) = false ->
      ~ Exists (same_key (name_of row) (address_of row) uid) (apartaments db) ->
      has_nul (type_of row) = false ->
      apartaments_check db (listing_of db uid row area cost) = Accepted ->
      row_outcome uid row k db
        (add_listing db (listing_of db uid row area cost), Ok (k + 1)).

(** The store takes the listing of a row: the texts handed to the
    statements hold no NUL character, and the table accepts the listing. *)
Definition storable (db : Database) (uid : Z) (row : Row) (area : Z)
    (cost : PyDecimal.Decimal) : Prop :=
  has_nul (name_of row) = false /\ has_nul (address_of row) = false /\
  has_nul (type_of row) = false /\
  apartaments_check db (listing_of db uid row area cost) = Accepted.

(** The dedup key of a stored listing. *)
Definition key_of (a : Apartment) : str * str * Z :=
  (apt_name a, apt_adress a, apt_user_id a).

(** [a] is the listing the import creates from [row] for owner [uid]. *)
Definition created_from (uid : Z) (row : Row) (a : Apartment) : Prop :=
  apt_user_id a = uid /\
  apt_name a = name_of row /\ apt_name a <> [] /\
  apt_adress a = address_of row /\ apt_adress a <> [] /\
  (exists area, int_float (area_raw_of row) = Ok area /\ apt_area a = Some area) /\
  (exists cost, PyDecimal.of_str (price_raw_of row) = Ok cost /\ apt_cost a = Some cost) /\
  apt_tokens a = Some 0 /\
  apt_type a = Some (type_of row).

(** The non-empty segments of a slash-delimited path. *)
Definition segments (s : str) : list str :=
  filter (fun part => truthy part = true) (split "/" s).

(** Drop a leading segment that is "pictures" in any case. *)
Definition drop_pictures (segs : list str) : list str :=
  match segs with
  | p0 :: rest => if bool_decide (lower p0 = $"pictures") then rest else segs
  | [] => []
  end.

(** Scheme and authority of [PICTURES_URL_BASE]. *)
Definition URL_ORIGIN : str := $"http://jumbo.galagen.net:2205".

Definition is_delim (c : ascii) : bool :=
  bool_decide (c = "?"%char) || bool_decide (c = "#"%char).

(** The text before the first "?" or "#". *)
Fixpoint until_delim (s : str) : str :=
  match s with
  | [] => []
  | c :: s' => if is_delim c then [] else c :: until_delim s'
  end.

(** The path portion of a resolved URL: its path component, which
    follows scheme and authority and ends before the query ("?") and
    the fragment ("#"). *)
Definition path_portion (url : str) : str :=
  until_delim (drop (length URL_ORIGIN) url).

(** A component of a parsed path: not empty, not ".", without slash. *)
Definition component (p : str) : Prop :=
  p <> [] /\ p <> $"." /\ "/"%char ∉ p.

(** The path the resolver splits into segments: the parsed input, made
    relative to the pictures root when it is absolute and lies under
    it. *)
Definition candidate_of (v : str) : PurePosixPath :=
  let candidate := Path v in
  if is_absolute candidate then
    match relative_to candidate PICTURES_ROOT with
    | Some c => c
    | None => candidate
    end
  else candidate.

(** "primary-first, then by identifier ascending" *)
Definition primary_first_then_id (a b : Picture) : Prop :=
  (pic_is_primary a = true /\ pic_is_primary b = false) \/
  (pic_is_primary a = pic_is_primary b /\ pic_id a <= pic_id b).

(** *** Sample data *)

Definition cells (l : list (string * string)) : Row :=
  list_to_map ((fun kv => (kv.1, Some (list_ascii_of_string kv.2))) <$> l).

Definition row_loft : Row :=
  cells [("title", "Loft"); ("address", "1 Main St"); ("area", "45.7");
         ("price_usd", "1,234.50")]%string.
(** The same listing again, with blanks around the name. *)
Definition row_loft_again : Row :=
  cells [("title", "  Loft "); ("address", "1 Main St"); ("area_m2", "46");
         ("cost", "99"); ("type", "Studio")]%string.
Definition row_negative_area : Row :=
  cells [("name", "Cellar"); ("adress", "2 Low Rd"); ("area", "-5");
         ("cost", "10")]%string.
Definition row_infinite_area : Row :=
  cells [("title", "Palace"); ("address", "3 High St"); ("area", "inf");
         ("price_usd", "1")]%string.
Definition row_no_area : Row :=
  cells [("title", "Shed"); ("address", "4 Back Ln"); ("price_usd", "5")]%string.
Definition row_no_cost : Row :=
  cells [("title", "Barn"); ("address", "5 Farm Rd"); ("area", "120")]%string.
Definition row_blank_address : Row :=
  cells [("title", "Tent"); ("address", "   "); ("area", "4");
         ("price_usd", "1")]%string.

Definition db_pictures : Database :=
  mkDatabase [] []
    [ mkPicture 1 7 (Some $"pictures/7/b.jpg") false;
      mkPicture 2 7 (Some $"/srv/homepass/pictures/7/a.jpg") true;
      mkPicture 3 8 (Some $"8/x.jpg") true;
      mkPicture 4 7 None false;
      mkPicture 5 7 (Some $"Pictures") true ] 1 (fun _ => Accepted).

Definition row_seven : ApartmentRow :=
  mkApartmentRow 7 $"Loft" $"1 Main St" (Some 45) None (Some 0) (Some $"Flat") None.

(** A store with one user and no listing, whose table of listings
    accepts every row. *)
Definition db_one_user : Database :=
  mkDatabase [mkUser 1 $"0xabc" $"Ada" $"Lovelace"] [] [] 1 (fun _ => Accepted).

(** A file system with one file, which reads without failure. *)
Definition fs_homes (rows : list Row) : FileSystem :=
  mkFileSystem
    (fun p => if bool_decide (p = $"/srv/homepass/homes.csv") then Some rows else None)
    (fun _ => None).

Definition fs_reimport : FileSystem :=
  fs_homes [row_loft; row_no_area; row_loft_again; row_negative_area].

Definition fs_twice : FileSystem := fs_homes [row_loft; row_loft_again].

Definition fs_negative : FileSystem := fs_homes [row_negative_area; row_loft].

Definition fs_infinite : FileSystem := fs_homes [row_loft; row_infinite_area].

Definition row_nan_cost : Row :=
  cells [("title", "Vault"); ("address", "6 Bank St"); ("area", "10");
         ("price_usd", "NaN")]%string.

(** A store that holds a listing with the name and address of
    [row_infinite_area] for owner 1. *)
Definition db_palace : Database :=
  mkDatabase [mkUser 1 $"0xabc" $"Ada" $"Lovelace"]
    [mkApartment 1 1 $"Palace" $"3 High St" (Some 900) None (Some 0) (Some $"Flat")]
    [] 2 (fun _ => Accepted).

(** A title with a NUL character in it. *)
Definition row_nul_title : Row :=
  <["title" := Some [ "A"%char; "000"%char; "B"%char ]]> row_loft.

Definition row_huge_area : Row :=
  cells [("title", "Hangar"); ("address", "7 Air Rd"); ("area", "1e23");
         ("price_usd", "1")]%string.

(** A store whose column [area] is a 32-bit integer. *)
Definition db_int4 : Database :=
  mkDatabase [mkUser 1 $"0xabc" $"Ada" $"Lovelace"] [] [] 1
    (fun a => match apt_area a with
              | Some n => if (- 2 ^ 31 <=? n) && (n <? 2 ^ 31) then Accepted
                          else Rejected true
              | None => Accepted
              end).

(** A file whose second line is not UTF-8: reading fails after one row. *)
Definition fs_broken : FileSystem :=
  mkFileSystem
    (fun p => if bool_decide (p = $"/srv/homepass/homes.csv")
              then Some [row_loft; row_negative_area] else None)
    (fun p => if bool_decide (p = $"/srv/homepass/homes.csv")
              then Some (1%nat, "UnicodeDecodeError"%string) else None).

End Spec.

(** ** The read handlers and the pictures folder *)

Module Handlers.
Import PyStr PurePath Api.

(** What a handler can raise besides the exceptions above: another error
    of the operating system ([PermissionError], [shutil.Error], ...), or
    [psycopg2.DataError]. *)
Inductive exc : Type :=
  | PyExn (e : exn)
  | OSError (name : string)
  | DataError.

Inductive outcome (A : Type) : Type :=
  | Return (a : A)
  | Throw (e : exc).
Arguments Return {A} a.
Arguments Throw {A} e.

(** The file-system calls of the module, over a state [W] of the file
    system: [Path.exists], [Path.mkdir(parents=True, exist_ok=True)] and
    [shutil.copytree(src, dst, dirs_exist_ok=True)].  [exists] is taken to
    answer; nothing else is assumed about what the calls do or raise. *)
Class FileOps (W : Type) : Type := {
  path_exists : W -> PurePosixPath -> bool;
  mkdir_parents : PurePosixPath -> W -> W * outcome unit;
  copytree : PurePosixPath -> PurePosixPath -> W -> W * outcome unit
}.

Definition PICTURES_SOURCE : PurePosixPath := Path $"pictures".

Definition copy_pictures_folder {W} `{FileOps W}
    (source dest_root : PurePosixPath) (w : W) : W * outcome PurePosixPath :=
  if negb (path_exists w source) then (w, Throw (PyExn FileNotFoundError))
  else
    match mkdir_parents dest_root w with
    | (w1, Throw e) => (w1, Throw e)
    | (w1, Return _) =>
        let dest_path := truediv dest_root $"pictures" in
        match copytree source dest_path w1 with
        | (w2, Throw e) => (w2, Throw e)
        | (w2, Return _) => (w2, Return dest_path)
        end
    end.

Definition ensure_pictures_available {W} `{FileOps W} (w : W) : W * outcome unit :=
  if path_exists w PICTURES_ROOT then (w, Return tt)
  else
    match copy_pictures_folder PICTURES_SOURCE PICTURES_DEST_ROOT w with
    | (w', Throw (PyExn FileNotFoundError)) => (w', Return tt)
    | (w', Throw e) => (w', Throw e)
    | (w', Return _) => (w', Return tt)
    end.

(** The columns the read queries select from a listing. *)
Definition to_row (a : Apartment) : ApartmentRow :=
  mkApartmentRow (apt_id a) (apt_name a) (apt_adress a) (apt_area a)
                 (apt_cost a) (apt_tokens a) (apt_type a) None.

(** [ORDER BY id] *)
Definition apartment_le (a b : Apartment) : Prop := apt_id a <= apt_id b.

#[global] Instance apartment_le_dec : RelDecision apartment_le :=
  fun a b => decide (apt_id a <= apt_id b).

(** [LIMIT n]: the server rejects a negative count and one that is no
    [bigint]. *)
Definition limit {A} (n : Z) (rows : list A) : outcome (list A) :=
  if (n <? 0) || (2 ^ 63 - 1 <? n) then Throw DataError
  else Return (take (Z.to_nat n) rows).

(** [get_houses]; [n] is [None] when the request gives no [n]. *)
Definition get_houses {W} `{FileOps W} (n : option Z) (w : W) (db : Database)
    : W * outcome (list ApartmentRow) :=
  match ensure_pictures_available w with
  | (w', Throw e) => (w', Throw e)
  | (w', Return _) =>
      match limit (default 10 n)
                  (to_row <$> merge_sort apartment_le (apartaments db)) with
      | Throw e => (w', Throw e)
      | Return rows => (w', Return (_attach_images db rows))
      end
  end.

Definition get_user_houses {W} `{FileOps W} (uid : Z) (n : option Z) (w : W)
    (db : Database) : W * outcome (list ApartmentRow) :=
  match ensure_pictures_available w with
  | (w', Throw e) => (w', Throw e)
  | (w', Return _) =>
      match limit (default 10 n)
                  (to_row <$> merge_sort apartment_le
                     (filter (fun a => apt_user_id a = uid) (apartaments db))) with
      | Throw e => (w', Throw e)
      | Return rows => (w', Return (_attach_images db rows))
      end
  end.

(** The path [import_csv] reads: the given one, or the server's file when
    none or an empty one is given. *)
Definition import_path (csv_path : option str) : PurePosixPath :=
  match csv_path with
  | Some v => if truthy v then Path v else SERVER_CSV
  | None => SERVER_CSV
  end.

(** The dedup key a row has for an owner. *)
Definition row_key (uid : Z) (row : Row) : str * str * Z :=
  (name_of row, address_of row, uid).

(** A row that passes every check of the import loop. *)
Definition valid_row (row : Row) : Prop :=
  name_of row <> [] /\ address_of row <> [] /\
  (exists area, int_float (area_raw_of row) = Ok area) /\
  (exists cost, PyDecimal.of_str (price_raw_of row) = Ok cost).

(** A row that stops the import: it has a name and an address, and an
    area that [float] reads as an infinity. *)
Definition overflowing_row (row : Row) : Prop :=
  name_of row <> [] /\ address_of row <> [] /\
  int_float (area_raw_of row) = Raise OverflowError.

(** *** Sample data *)

(** A file system that only records the texts of the paths that exist. *)
#[global] Instance names_only : FileOps (list str) := {
  path_exists w p := bool_decide (as_posix p ∈ w);
  mkdir_parents p w := (as_posix p :: w, Return tt);
  copytree src dst w :=
    if bool_decide (as_posix src ∈ w) then (as_posix dst :: w, Return tt)
    else (w, Throw (PyExn FileNotFoundError))
}.

(** A file system where making the destination fails. *)
Definition read_only_ops : FileOps (list str) := {|
  path_exists w p := bool_decide (as_posix p ∈ w);
  mkdir_parents p w := (w, Throw (OSError "PermissionError"));
  copytree src dst w := (w, Throw (OSError "PermissionError"))
|}.

Definition db_two_owners : Database :=
  mkDatabase
    [mkUser 1 $"0xabc" $"Ada" $"Lovelace"; mkUser 2 $"0xdef" $"Alan" $"Turing"]
    [ mkApartment 5 2 $"Loft" $"1 Main St" (Some 40) None (Some 0) (Some $"Flat");
      mkApartment 3 1 $"Barn" $"5 Farm Rd" None None None None;
      mkApartment 4 1 $"Shed" $"4 Back Ln" (Some 9) None (Some 0) (Some $"Flat") ]
    [ mkPicture 1 3 (Some $"pictures/3/b.jpg") false;
      mkPicture 2 3 (Some $"/srv/homepass/pictures/3/a.jpg") true;
      mkPicture 3 3 None true ]
    6 (fun _ => Accepted).

End Handlers.

(** * Properties *)

Import PyStr PurePath Api Spec.

(** ** The library models on known values *)

Example float_ex1 : int_float $"1e23" = Ok 99999999999999991611392.
Proof. vm_compute. reflexivity. Qed.
Example float_ex2 : PyFloat.of_str $"0.1" = Ok (PyFloat.Fin false 7205759403792794 (-56)).
Proof. vm_compute. reflexivity. Qed.
Example float_ex3 : int_float $"9007199254740993" = Ok 9007199254740992.
Proof. vm_compute. reflexivity. Qed.
Example float_ex4 : int_float $"0.99999999999999999999" = Ok 1.
Proof. vm_compute. reflexivity. Qed.
Example float_ex5 : int_float $"-12.75" = Ok (-12).
Proof. vm_compute. reflexivity. Qed.
Example float_ex6 : int_float $"1e400" = Raise OverflowError.
Proof. vm_compute. reflexivity. Qed.
Example float_ex7 : int_float $"-Infinity" = Raise OverflowError.
Proof. vm_compute. reflexivity. Qed.
Example float_ex8 : int_float $"nan" = Raise ValueError.
Proof. vm_compute. reflexivity. Qed.
Example float_ex9 : int_float $"1_000.5" = Ok 1000.
Proof. vm_compute. reflexivity. Qed.
Example float_ex10 : int_float $"1e" = Raise ValueError.
Proof. vm_compute. reflexivity. Qed.
Example float_ex11 : PyFloat.of_str $"5e-324" = Ok (PyFloat.Fin false 1 (-1074)).
Proof. vm_compute. reflexivity. Qed.
Example float_ex12 : PyFloat.of_str $"2e-324" = Ok (PyFloat.Fin false 0 (-1074)).
Proof. vm_compute. reflexivity. Qed.
Example float_ex13 : PyFloat.of_str $"1.7976931348623158e308" = Ok (PyFloat.Fin false 9007199254740991 971).
Proof. vm_compute. reflexivity. Qed.
Example float_ex14 : PyFloat.of_str $"1.7976931348623159e308" = Ok (PyFloat.Inf false).
Proof. vm_compute. reflexivity. Qed.
Example float_ex15 : int_float $"" = Raise ValueError.
Proof. vm_compute. reflexivity. Qed.
Example float_ex16 : int_float $".5" = Ok 0.
Proof. vm_compute. reflexivity. Qed.
Example float_ex17 : int_float $"5." = Ok 5.
Proof. vm_compute. reflexivity. Qed.
Example float_ex18 : int_float $"." = Raise ValueError.
Proof. vm_compute. reflexivity. Qed.

Example dec_ex1 : PyDecimal.of_str $"1234.50" = Ok (PyDecimal.Finite false 123450 (-2)).
Proof. vm_compute. reflexivity. Qed.
Example dec_ex2 : PyDecimal.of_str $"-1_0e+3" = Ok (PyDecimal.Finite true 10 3).
Proof. vm_compute. reflexivity. Qed.
Example dec_ex3 : PyDecimal.of_str $"" = Raise InvalidOperation.
Proof. vm_compute. reflexivity. Qed.
Example dec_ex4 : PyDecimal.of_str $"sNaN12" = Ok (PyDecimal.NaN false true 12).
Proof. vm_compute. reflexivity. Qed.
Example dec_ex5 : PyDecimal.of_str $"-inFinity" = Ok (PyDecimal.Infinity true).
Proof. vm_compute. reflexivity. Qed.
Example dec_ex6 : PyDecimal.of_str $"12abc" = Raise InvalidOperation.
Proof. vm_compute. reflexivity. Qed.
Example path_ex1 : PurePath.as_posix (PurePath.Path $"//a/./b//c/") = $"//a/b/c".
Proof. vm_compute. reflexivity. Qed.
Example path_ex2 : PurePath.as_posix (PurePath.Path $"///a/../b") = $"/a/../b".
Proof. vm_compute. reflexivity. Qed.
Example path_ex3 : PurePath.as_posix (PurePath.Path $"./") = $".".
Proof. vm_compute. reflexivity. Qed.
Example path_ex4 :
  PurePath.as_posix <$> PurePath.relative_to (PurePath.Path $"/srv/homepass/pictures/1/a.jpg") (PurePath.Path $"/srv/homepass/pictures") = Some $"1/a.jpg".
Proof. vm_compute. reflexivity. Qed.
Example path_ex5 :
  PurePath.relative_to (PurePath.Path $"//srv/homepass/pictures/1/a.jpg") (PurePath.Path $"/srv/homepass/pictures") = None.
Proof. vm_compute. reflexivity. Qed.
Example path_ex6 :
  PurePath.as_posix <$> PurePath.relative_to (PurePath.Path $"/srv/homepass/pictures") (PurePath.Path $"/srv/homepass/pictures") = Some $".".
Proof. vm_compute. reflexivity. Qed.

(** ** Strings and paths *)

Lemma truthy_false (s : str) : truthy s = false <-> s = [].
Proof. destruct s; simpl; split; congruence. Qed.

Lemma truthy_true (s : str) : truthy s = true <-> s <> [].
Proof. destruct s; simpl; split; congruence. Qed.

(** *** Splitting and joining *)

Section Split.
Context (sep : ascii).

Lemma split_not_nil s : split sep s <> [].
Proof.
  destruct s as [|c s]; simpl; [done|].
  destruct (decide (c = sep)); [done|]. by destruct (split sep s).
Qed.

Lemma split_cons_sep s : split sep (sep :: s) = [] :: split sep s.
Proof. simpl. by rewrite decide_True. Qed.

Lemma split_cons_other c s :
  c <> sep ->
  exists h t, split sep s = h :: t /\ split sep (c :: s) = (c :: h) :: t.
Proof.
  intros Hc. simpl. rewrite decide_False by done.
  destruct (split sep s) as [|h t] eqn:E; [by destruct (split_not_nil s)|].
  by exists h, t.
Qed.

Lemma split_no_sep p : sep ∉ p -> split sep p = [p].
Proof.
  induction p as [|c p IH]; intros Hp; [done|].
  apply not_elem_of_cons in Hp as [Hc Hp].
  destruct (split_cons_other c p) as (h & t & E1 & E2); [done|].
  rewrite E2. rewrite (IH Hp) in E1. by injection E1 as <- <-.
Qed.

Lemma split_app_sep p rest :
  sep ∉ p -> split sep (p ++ sep :: rest) = p :: split sep rest.
Proof.
  induction p as [|c p IH]; intros Hp; [apply split_cons_sep|].
  apply not_elem_of_cons in Hp as [Hc Hp].
  destruct (split_cons_other c (p ++ sep :: rest)) as (h & t & E1 & E2); [done|].
  simpl app. rewrite E2. rewrite (IH Hp) in E1. by injection E1 as <- <-.
Qed.

Lemma split_parts_no_sep s : Forall (fun p => sep ∉ p) (split sep s).
Proof.
  induction s as [|c s IH]; [repeat constructor; by apply not_elem_of_nil|].
  destruct (decide (c = sep)) as [->|Hc].
  - rewrite split_cons_sep. constructor; [apply not_elem_of_nil|done].
  - destruct (split_cons_other c s) as (h & t & E1 & E2); [done|].
    rewrite E2. rewrite E1 in IH. apply Forall_cons in IH as [Hh Ht].
    constructor; [|done]. apply not_elem_of_cons. split; [congruence|done].
Qed.

End Split.

Lemma segments_cons_slash s : segments ("/"%char :: s) = segments s.
Proof. unfold segments. rewrite split_cons_sep. by rewrite filter_cons_False. Qed.

Lemma segments_lstrip_slash s :
  segments (lstrip_by (fun x => bool_decide (x = "/"%char)) s) = segments s.
Proof.
  induction s as [|c s IH]; [done|]. simpl.
  case_bool_decide as Hc; [|done]. subst c. by rewrite segments_cons_slash.
Qed.

Lemma segments_join (ps : list str) :
  Forall component ps -> segments (join $"/" ps) = ps.
Proof.
  induction ps as [|p ps IH]; intros Hps; [done|].
  apply Forall_cons in Hps as [(Hne & _ & Hns) Hps].
  destruct ps as [|q ps].
  - simpl. unfold segments. rewrite split_no_sep by done.
    rewrite filter_cons_True; [done|]. by destruct p.
  - change (join $"/" (p :: q :: ps)) with (p ++ "/"%char :: join $"/" (q :: ps)).
    unfold segments. rewrite split_app_sep by done.
    rewrite filter_cons_True by (by destruct p).
    f_equal. by apply IH.
Qed.

(** *** Parsed paths *)

(** The root is empty exactly for a path that does not start with a slash;
    dropping the leading slashes does not change the segments. *)
Lemma splitroot_spec s :
  exists r rel,
    splitroot s = (r, rel) /\ segments rel = segments s /\
    ((r = [] /\ rel = s /\ forall s', s <> "/"%char :: s') \/
     ((r = $"/" \/ r = $"//") /\ exists s', s = "/"%char :: s')).
Proof.
  unfold splitroot. destruct s as [|c s]; [exists [], []; split_and!; auto|].
  destruct (decide (c = "/"%char)) as [->|Hc].
  - set (rel := lstrip_by _ _).
    assert (Hseg : segments rel = segments ("/"%char :: s))
      by apply segments_lstrip_slash.
    destruct (_ =? 2)%nat; eexists _, rel; split_and!; eauto.
  - exists [], (c :: s). split_and!; auto. left. split_and!; auto. congruence.
Qed.

Lemma Path_spec s :
  parts (Path s) = filter (fun x => x <> $".") (segments s) /\
  Forall component (parts (Path s)) /\
  ((root (Path s) = [] /\ forall s', s <> "/"%char :: s') \/
   ((root (Path s) = $"/" \/ root (Path s) = $"//") /\ exists s', s = "/"%char :: s')).
Proof.
  unfold Path. destruct (splitroot_spec s) as (r & rel & -> & Hseg & Hr). simpl.
  split_and!.
  - rewrite <- Hseg. unfold segments. rewrite list_filter_filter.
    apply list_filter_iff. intros x. rewrite truthy_true. tauto.
  - apply Forall_forall. intros p Hp.
    apply list_elem_of_filter in Hp as [[Hne Hdot] Hin].
    pose proof (split_parts_no_sep "/"%char rel) as Hall.
    rewrite Forall_forall in Hall. split_and!; auto.
  - destruct Hr as [(-> & _ & H)|[H1 H2]]; auto.
Qed.

Lemma segments_root_join r ps :
  r = $"/" \/ r = $"//" -> Forall component ps ->
  segments (r ++ join $"/" ps) = ps.
Proof.
  intros [-> | ->] Hps; simpl app; rewrite ?segments_cons_slash;
    by apply segments_join.
Qed.

Lemma join_nil_inv ps : Forall component ps -> join $"/" ps = [] -> ps = [].
Proof.
  intros Hps Hj. destruct ps as [|p ps]; [done|]. exfalso.
  apply Forall_cons in Hps as [(Hne & _) _].
  destruct ps; simpl in Hj; [done|]. by destruct p.
Qed.

(** The non-empty segments of the text of a parsed path are its
    components, or the single segment "." for the empty relative path. *)
Lemma segments_as_posix p :
  (root p = [] \/ root p = $"/" \/ root p = $"//") ->
  Forall component (parts p) ->
  segments (as_posix p)
  = if bool_decide (root p = [] /\ parts p = []) then [ $"." ] else parts p.
Proof.
  intros Hr Hps. unfold as_posix.
  destruct Hr as [Hr | Hr].
  - rewrite Hr. change (truthy []) with false. cbv iota.
    destruct (join $"/" (parts p)) as [|c j] eqn:Hj.
    + rewrite (join_nil_inv _ Hps Hj). rewrite bool_decide_eq_true_2 by done. done.
    + change (truthy (c :: j)) with true. cbv iota.
      rewrite <- Hj. rewrite segments_join by done.
      rewrite bool_decide_eq_false_2; [done|]. intros [_ Hp]. by rewrite Hp in Hj.
  - assert (Ht : truthy (root p) = true) by (by destruct Hr as [-> | ->]).
    rewrite Ht. 
    assert (Ht2 : truthy (root p ++ join $"/" (parts p)) = true)
      by (by destruct Hr as [-> | ->]).
    rewrite Ht2. rewrite segments_root_join by done.
    rewrite bool_decide_eq_false_2; [done|]. intros [Hr' _].
    rewrite Hr' in Ht. done.
Qed.

(** [relative_to] keeps a tail of the components and clears the root. *)
Lemma relative_to_pictures_root p c :
  Forall component (parts p) ->
  relative_to p PICTURES_ROOT = Some c ->
  root p = $"/" /\ root c = [] /\
  parts p = [ $"srv"; $"homepass"; $"pictures" ] ++ parts c.
Proof.
  intros Hps. unfold relative_to.
  change (abs_parts PICTURES_ROOT)
    with [ []; $"/"; $"srv"; $"homepass"; $"pictures" ].
  cbn [length Nat.eqb].
  case_bool_decide as Htake; [|done]. simpl negb. cbv iota.
  intros [= <-]. simpl root. simpl parts.
  unfold abs_parts in *. destruct (truthy (root p)) eqn:Hroot.
  - destruct (parts p) as [|p1 [|p2 [|p3 ps]]]; try done.
    simpl in Htake. injection Htake as -> -> -> ->. done.
  - exfalso. destruct (parts p) as [|p1 ps]; [done|].
    apply Forall_cons in Hps as [(Hne & _) _].
    simpl in Htake. by injection Htake as -> _.
Qed.

(** ** Image URL resolver *)

(** *** The resolver *)

Lemma resolve_unfold v :
  v <> [] ->
  _resolve_image_url (Some v) =
    match drop_pictures (segments (as_posix (candidate_of v))) with
    | [] => None
    | p :: ps => Some (PICTURES_URL_BASE ++ $"/" ++ join $"/" (p :: ps))
    end.
Proof.
  intros Hv. unfold _resolve_image_url.
  destruct v as [|c v]; [done|]. change (negb (truthy (c :: v))) with false.
  cbv iota. fold (candidate_of (c :: v)).
  fold (segments (as_posix (candidate_of (c :: v)))).
  destruct (segments _) as [|p0 rest]; [done|]. simpl drop_pictures.
  destruct (bool_decide _); [by destruct rest|done].
Qed.

Lemma candidate_spec v :
  (root (candidate_of v) = [] \/ root (candidate_of v) = $"/"
   \/ root (candidate_of v) = $"//") /\
  Forall component (parts (candidate_of v)) /\
  (candidate_of v = Path v \/
   parts (Path v) = [ $"srv"; $"homepass"; $"pictures" ] ++ parts (candidate_of v)).
Proof.
  destruct (Path_spec v) as (_ & Hcomp & Hroot).
  unfold candidate_of. destruct (is_absolute (Path v)).
  2:{ split_and!; [tauto|done|by left]. }
  destruct (relative_to (Path v) PICTURES_ROOT) as [c|] eqn:Hrel.
  2:{ split_and!; [tauto|done|by left]. }
  destruct (relative_to_pictures_root _ _ Hcomp Hrel) as (_ & Hc & Hparts).
  split_and!; [by left| |by right].
  rewrite Hparts in Hcomp. by apply Forall_app in Hcomp as [_ ?].
Qed.

Lemma segments_head_other c s : c <> "/"%char -> segments (c :: s) <> [].
Proof.
  intros Hc. unfold segments.
  destruct (split_cons_other "/"%char c s) as (h & t & _ & ->); [done|].
  by rewrite filter_cons_True.
Qed.

Lemma drop_pictures_nil segs :
  drop_pictures segs = [] ->
  segs = [] \/ exists p0, segs = [p0] /\ lower p0 = $"pictures".
Proof.
  destruct segs as [|p0 rest]; [by left|]. simpl.
  case_bool_decide as Hl; [|done]. intros ->. right. by exists p0.
Qed.

(** C5: the resolver returns absent for an absent or empty path, and for
    every path of which no segment remains once the empty segments and a
    leading "pictures" segment (in any case) are dropped. *)
Theorem C5_resolver_absent (value : option str) :
  value = None \/ value = Some [] \/
  (exists s, value = Some s /\ drop_pictures (segments s) = []) ->
  _resolve_image_url value = None.
Proof.
  intros [-> | [-> | (s & -> & Hs)]]; [done|done|].
  destruct (decide (s = [])) as [->|Hne]; [done|].
  rewrite resolve_unfold by done.
  destruct (Path_spec s) as (Hparts & Hcomp & Hroot).
  destruct (candidate_spec s) as (Hr & Hc & [Hcand | Hunder]).
  2:{ (* fewer than three components: not under the pictures root *)
      exfalso. rewrite Hparts in Hunder.
      apply drop_pictures_nil in Hs as [Hs | (p0 & Hs & _)]; rewrite Hs in Hunder.
      - done.
      - rewrite filter_cons in Hunder. by destruct (decide _). }
  rewrite segments_as_posix by done. rewrite Hcand.
  apply drop_pictures_nil in Hs as [Hs | (p0 & Hs & Hl)].
  - rewrite Hs in Hparts. rewrite Hparts.
    rewrite bool_decide_eq_false_2; [done|]. intros [Hroot0 _].
    destruct Hroot as [[_ Hrel] | [[H|H] _]]; [|by rewrite H in Hroot0..].
    destruct s as [|c s]; [done|].
    apply (segments_head_other c s); [|done]. intros ->. by eapply Hrel.
  - rewrite Hs in Hparts. rewrite filter_cons_True in Hparts.
    2:{ intros ->. by vm_compute in Hl. }
    rewrite Hparts. rewrite bool_decide_eq_false_2 by (by intros [_ ?]).
    simpl. by rewrite bool_decide_eq_true_2.
Qed.

Lemma C5_witness : _resolve_image_url (Some $"//PicTures/") = None.
Proof.
  apply C5_resolver_absent. right. right.
  exists $"//PicTures/". split; [reflexivity|]. vm_compute. reflexivity.
Defined.

Lemma filter_components ps :
  Forall component ps -> filter (fun x : str => x <> $".") ps = ps.
Proof.
  induction 1 as [|p ps (_ & Hdot & _) _ IH]; [done|].
  rewrite filter_cons_True by done. by rewrite IH.
Qed.

Lemma drop_pictures_components segs :
  Forall component segs -> Forall component (drop_pictures segs).
Proof.
  intros H. destruct segs as [|p0 rest]; [done|]. simpl.
  destruct (bool_decide _); [|done]. by apply Forall_cons in H as [_ ?].
Qed.

Lemma until_delim_id s :
  "?"%char ∉ s -> "#"%char ∉ s -> until_delim s = s.
Proof.
  induction s as [|c s IH]; [done|]. intros Hq Hh.
  apply not_elem_of_cons in Hq as [Hq1 Hq2], Hh as [Hh1 Hh2].
  simpl. unfold is_delim.
  rewrite !bool_decide_eq_false_2 by congruence. simpl. by rewrite IH.
Qed.

(** The path component of a URL cuts the query and the fragment off. *)
Example path_portion_cuts_query :
  path_portion $"http://jumbo.galagen.net:2205/pictures/7/a.jpg?w=200#top"
  = $"/pictures/7/a.jpg".
Proof. vm_compute. reflexivity. Qed.

Lemma path_portion_base rest :
  "?"%char ∉ rest -> "#"%char ∉ rest ->
  path_portion (PICTURES_URL_BASE ++ $"/" ++ rest) = "/"%char :: $"pictures" ++ $"/" ++ rest.
Proof.
  intros Hq Hh. unfold path_portion.
  change (drop (length URL_ORIGIN) (PICTURES_URL_BASE ++ $"/" ++ rest))
    with ($"/pictures/" ++ rest).
  rewrite until_delim_id; [done| |].
  - rewrite elem_of_app. intros [H|H]; [|done]. vm_compute in H.
    repeat (apply elem_of_cons in H as [H|H]; [discriminate H|]).
    by apply elem_of_nil in H.
  - rewrite elem_of_app. intros [H|H]; [|done]. vm_compute in H.
    repeat (apply elem_of_cons in H as [H|H]; [discriminate H|]).
    by apply elem_of_nil in H.
Qed.

(** The path portion of a resolved URL resolves to that URL again, as
    long as the URL was built from proper components and holds neither
    "?" nor "#". *)
Lemma resolve_path_portion p ps :
  Forall component (p :: ps) ->
  "?"%char ∉ join $"/" (p :: ps) -> "#"%char ∉ join $"/" (p :: ps) ->
  _resolve_image_url
    (Some (path_portion (PICTURES_URL_BASE ++ $"/" ++ join $"/" (p :: ps))))
  = Some (PICTURES_URL_BASE ++ $"/" ++ join $"/" (p :: ps)).
Proof.
  intros Hps Hq Hh. rewrite path_portion_base by done.
  set (w := "/"%char :: $"pictures" ++ $"/" ++ join $"/" (p :: ps)).
  assert (Hpic : component $"pictures").
  { split_and!; [done|done|]. vm_compute. intros H.
    repeat (apply elem_of_cons in H as [H|H]; [discriminate H|]).
    by apply elem_of_nil in H. }
  assert (Hall : Forall component ($"pictures" :: p :: ps)) by by constructor.
  assert (Hseg : segments w = $"pictures" :: p :: ps).
  { unfold w. rewrite segments_cons_slash.
    change ($"pictures" ++ $"/" ++ join $"/" (p :: ps))
      with (join $"/" ($"pictures" :: p :: ps)).
    by apply segments_join. }
  rewrite resolve_unfold by done.
  destruct (Path_spec w) as (Hparts & Hcomp & Hroot).
  rewrite Hseg, filter_components in Hparts by done.
  destruct (candidate_spec w) as (Hr & Hc & [Hcand | Hunder]).
  2:{ exfalso. rewrite Hparts in Hunder. simpl in Hunder.
      by injection Hunder. }
  rewrite segments_as_posix by done. rewrite Hcand, Hparts.
  rewrite bool_decide_eq_false_2 by (by intros [_ ?]).
  reflexivity.
Qed.

(** A file name with a "?" resolves to a URL whose path component ends
    before the "?", and resolves to another URL. *)
Example path_with_query_not_idempotent :
  _resolve_image_url (Some $"7/a?b.jpg")
    = Some $"http://jumbo.galagen.net:2205/pictures/7/a?b.jpg" /\
  path_portion $"http://jumbo.galagen.net:2205/pictures/7/a?b.jpg" = $"/pictures/7/a" /\
  _resolve_image_url (Some $"/pictures/7/a")
    = Some $"http://jumbo.galagen.net:2205/pictures/7/a".
Proof. vm_compute. repeat split; reflexivity. Qed.

(** C6, as stated, fails: the path "." resolves to a URL whose path
    portion resolves to absent. *)
Lemma C6_counterexample :
  _resolve_image_url (Some $".")
    = Some $"http://jumbo.galagen.net:2205/pictures/." /\
  path_portion $"http://jumbo.galagen.net:2205/pictures/." = $"/pictures/." /\
  _resolve_image_url (Some $"/pictures/.") = None.
Proof. vm_compute. repeat split; reflexivity. Qed.

(** C6, amended: for every input path that resolves to a URL other than
    the base followed by "/.", and with neither "?" nor "#" in it,
    resolving the path portion of that URL yields the same URL again. *)
Theorem C6_resolver_idempotent (v url : str) :
  _resolve_image_url (Some v) = Some url ->
  url <> PICTURES_URL_BASE ++ $"/." ->
  "?"%char ∉ url -> "#"%char ∉ url ->
  _resolve_image_url (Some (path_portion url)) = Some url.
Proof.
  intros Hres Hurl Hq Hh.
  destruct (decide (v = [])) as [->|Hne]; [done|].
  rewrite resolve_unfold in Hres by done.
  destruct (candidate_spec v) as (Hr & Hc & _).
  rewrite segments_as_posix in Hres by done.
  case_bool_decide as Hdot.
  - exfalso. apply Hurl. vm_compute in Hres. injection Hres as <-.
    vm_compute. reflexivity.
  - pose proof (drop_pictures_components _ Hc) as Hps.
    destruct (drop_pictures (parts (candidate_of v))) as [|p ps]; [done|].
    assert (Hu : url = PICTURES_URL_BASE ++ $"/" ++ join $"/" (p :: ps))
      by congruence.
    rewrite Hu in Hq, Hh |- *.
    rewrite !elem_of_app in Hq, Hh.
    apply resolve_path_portion; [done|tauto|tauto].
Qed.

Lemma C6_witness :
  _resolve_image_url
    (Some (path_portion $"http://jumbo.galagen.net:2205/pictures/7/a.jpg"))
  = Some $"http://jumbo.galagen.net:2205/pictures/7/a.jpg".
Proof.
  apply (C6_resolver_idempotent $"/srv/homepass/pictures/pictures/7/a.jpg").
  - vm_compute. reflexivity.
  - vm_compute. discriminate.
  - apply (bool_decide_unpack _). vm_compute. exact I.
  - apply (bool_decide_unpack _). vm_compute. exact I.
Defined.

(** ** Row enricher *)

Lemma picture_le_spec a b : picture_le a b <-> primary_first_then_id a b.
Proof.
  unfold picture_le, picture_leb, primary_first_then_id.
  destruct (pic_is_primary a), (pic_is_primary b); rewrite ?Z.leb_le;
    intuition congruence.
Qed.

#[local] Instance picture_le_trans : Transitive picture_le.
Proof.
  intros a b c. unfold picture_le, picture_leb.
  destruct (pic_is_primary a), (pic_is_primary b), (pic_is_primary c);
    rewrite ?Z.leb_le; try done; lia.
Qed.

#[local] Instance picture_le_total : Total picture_le.
Proof.
  intros a b. unfold picture_le, picture_leb.
  destruct (pic_is_primary a), (pic_is_primary b); rewrite ?Z.leb_le; auto; lia.
Qed.

(** A resolved URL is never the empty string. *)
Lemma resolve_truthy value url :
  _resolve_image_url value = Some url -> truthy url = true.
Proof.
  unfold _resolve_image_url. destruct value as [v|]; [|done].
  destruct (negb (truthy v)); [done|].
  match goal with |- context [filter ?P ?l] => generalize (filter P l) end.
  intros l. destruct l as [|p0 rest]; [done|].
  destruct (bool_decide _).
  - destruct rest; [done|]. by intros [= <-].
  - by intros [= <-].
Qed.

Lemma omap_resolve_truthy (paths : list (option str)) :
  omap (fun r => let p := _resolve_image_url r in
                 if truthy_opt p then p else None) paths
  = omap _resolve_image_url paths.
Proof.
  induction paths as [|r paths IH]; [done|].
  cbn [omap list_omap]. cbv zeta in IH. rewrite IH.
  destruct (_resolve_image_url r) as [url|] eqn:E; [|done].
  cbn [truthy_opt]. by rewrite (resolve_truthy _ _ E).
Qed.

Lemma StronglySorted_mono {A} (R S : relation A) (l : list A) :
  (forall a b, R a b -> S a b) -> StronglySorted R l -> StronglySorted S l.
Proof.
  intros HRS. induction 1 as [|a l Hl IH Hall]; constructor; [done|].
  eapply Forall_impl; [exact Hall|]. intros b. apply HRS.
Qed.

(** C7: for every listing row the enricher sets [images] to the resolved
    URLs of that listing's pictures, taken primary-first and then by
    ascending identifier, with the paths that resolve to absent left
    out; the columns of the row stay as they were. *)
Theorem C7_attach_images (db : Database) (rows : list ApartmentRow) :
  Forall2
    (fun row row' =>
       exists pics,
         pics ≡ₚ filter (fun p => pic_apartment_id p = row_id row) (pictures db) /\
         StronglySorted primary_first_then_id pics /\
         row_images row'
         = Some (omap _resolve_image_url (pic_file_path <$> pics)) /\
         row_id row' = row_id row /\ row_name row' = row_name row /\
         row_address row' = row_address row /\ row_area row' = row_area row /\
         row_cost row' = row_cost row /\ row_tokens row' = row_tokens row /\
         row_type row' = row_type row)
    rows (_attach_images db rows).
Proof.
  unfold _attach_images. induction rows as [|row rows IH]; [constructor|].
  rewrite fmap_cons. constructor; [|exact IH].
  exists (merge_sort picture_le
            (filter (fun p => pic_apartment_id p = row_id row) (pictures db))).
  split; [apply merge_sort_Permutation|]. split.
  - eapply StronglySorted_mono; [|apply StronglySorted_merge_sort; apply _].
    intros a b. apply picture_le_spec.
  - unfold _get_image_paths. rewrite omap_resolve_truthy.
    unfold set_images. simpl. by split_and!.
Qed.

(** The enricher on a row that had no [images] yet, in a store with four
    pictures of the listing: one path is absent and one resolves to
    absent, the primary picture comes first. *)
Lemma C7_witness :
  Forall2
    (fun row row' =>
       exists pics,
         pics ≡ₚ filter (fun p => pic_apartment_id p = row_id row) (pictures db_pictures) /\
         StronglySorted primary_first_then_id pics /\
         row_images row'
         = Some (omap _resolve_image_url (pic_file_path <$> pics)) /\
         row_id row' = row_id row /\ row_name row' = row_name row /\
         row_address row' = row_address row /\ row_area row' = row_area row /\
         row_cost row' = row_cost row /\ row_tokens row' = row_tokens row /\
         row_type row' = row_type row)
    [row_seven]
    [mkApartmentRow 7 $"Loft" $"1 Main St" (Some 45) None (Some 0) (Some $"Flat")
       (Some [ $"http://jumbo.galagen.net:2205/pictures/7/a.jpg";
               $"http://jumbo.galagen.net:2205/pictures/7/b.jpg" ])].
Proof. exact (C7_attach_images db_pictures [row_seven]). Defined.

Example attach_images_ex :
  row_images <$> _attach_images db_pictures [row_seven]
  = [Some [ $"http://jumbo.galagen.net:2205/pictures/7/a.jpg";
            $"http://jumbo.galagen.net:2205/pictures/7/b.jpg" ]].
Proof. vm_compute. reflexivity. Qed.

(** ** CSV import *)

Lemma Decimal_raises s e : PyDecimal.of_str s = Raise e -> e = InvalidOperation.
Proof.
  unfold PyDecimal.of_str.
  destruct (PyNum.parse_sign _) as [neg r].
  destruct (PyNum.parse_decimal r) as [[[ip fp] x]|].
  { destruct (PyDecimal.in_range _ _); [discriminate|congruence]. }
  destruct (_ || _); [discriminate|].
  destruct (PyDecimal.parse_nan r) as [[sg d]|]; [discriminate|].
  congruence.
Qed.

Lemma float_raises s e : PyFloat.of_str s = Raise e -> e = ValueError.
Proof.
  unfold PyFloat.of_str.
  destruct (_ ≫= _) as [t|]; [|congruence].
  destruct (PyNum.parse_sign _) as [neg r].
  destruct (PyNum.parse_decimal r) as [[[ip fp] x]|]; [discriminate|].
  destruct (_ || _); [discriminate|].
  destruct (bool_decide _); [discriminate|]. congruence.
Qed.

Lemma int_float_raises s e :
  int_float s = Raise e -> e = ValueError \/ e = OverflowError.
Proof.
  unfold int_float. destruct (PyFloat.of_str s) as [x|e'] eqn:E.
  - destruct x; simpl; intros [= <-]; auto.
  - intros [= <-]. left. eauto using float_raises.
Qed.

Lemma row_from_cost_spec uid row area k db :
  name_of row <> [] -> address_of row <> [] ->
  int_float (area_raw_of row) = Ok area ->
  row_outcome uid row k db
    (row_from_cost uid row (name_of row) (address_of row) area k db).
Proof.
  intros Hn Ha Har. unfold row_from_cost.
  destruct (PyDecimal.of_str (price_raw_of row)) as [c|e] eqn:Ec.
  - unfold bind, select_listing.
    destruct (has_nul (name_of row)) eqn:Hnn.
    { eapply ro_nul_key; eauto. }
    destruct (has_nul (address_of row)) eqn:Hna.
    { eapply ro_nul_key; eauto. }
    simpl. case_bool_decide as Hex.
    + eapply ro_duplicate; eauto.
    + unfold insert_listing. rewrite Hnn, Hna. simpl.
      destruct (has_nul (type_of row)) eqn:Hnt.
      { eapply ro_nul_type; eauto. }
      fold (listing_of db uid row area c).
      destruct (apartaments_check db (listing_of db uid row area c)) as [|drawn] eqn:Hchk.
      * eapply (ro_insert uid row k db area c); eauto.
      * eapply (ro_rejected uid row k db area c drawn); eauto.
  - pose proof (Decimal_raises _ _ Ec) as ->.
    eapply ro_bad_cost; eauto.
Qed.

Lemma row_step_spec uid row k db :
  row_outcome uid row k db (row_step uid row k db).
Proof.
  unfold row_step.
  destruct (truthy (name_of row)) eqn:Hn; simpl.
  2:{ apply ro_blank. left. by apply truthy_false. }
  destruct (truthy (address_of row)) eqn:Ha; simpl.
  2:{ apply ro_blank. right. by apply truthy_false. }
  apply truthy_true in Hn, Ha.
  destruct (int_float (area_raw_of row)) as [z|e] eqn:Ez.
  - by apply row_from_cost_spec.
  - destruct (int_float_raises _ _ Ez) as [-> | ->].
    + by apply ro_bad_area.
    + by apply ro_overflow.
Qed.

(** Case analysis on what the loop body did with a row: blank name or
    address, area that is no number, infinite area, bad cost, NUL in the
    name or the address, listing found, NUL in the type, listing
    rejected, listing inserted. *)
Ltac outcome_cases H :=
  inversion H as [Hb Heq | Hn Ha Hf Heq | Hn Ha Hf Heq | area Hn Ha Hf Hc Heq
                  | area cost Hn Ha Hf Hc Hnul Heq
                  | area cost Hn Ha Hf Hc Hnn Hna Hex Heq
                  | area cost Hn Ha Hf Hc Hnn Hna Hex Hnt Heq
                  | area cost drawn Hn Ha Hf Hc Hnn Hna Hex Hnt Hchk Heq
                  | area cost Hn Ha Hf Hc Hnn Hna Hex Hnt Hchk Heq].

(** *** The loop over the rows *)

Lemma for_rows_cons uid row rows k db :
  for_rows uid (row :: rows) k db =
    match row_step uid row k db with
    | (db', Ok k') => for_rows uid rows k' db'
    | (db', Raise e) => (db', Raise e)
    end.
Proof. reflexivity. Qed.

Lemma row_step_blank uid row k db :
  name_of row = [] \/ address_of row = [] -> row_step uid row k db = (db, Ok k).
Proof.
  intros H. unfold row_step.
  destruct H as [-> | ->]; simpl; [done|].
  by rewrite orb_true_r.
Qed.

Lemma row_step_bad_area uid row k db :
  int_float (area_raw_of row) = Raise ValueError -> row_step uid row k db = (db, Ok k).
Proof.
  intros H. unfold row_step. rewrite H. by destruct (_ || _).
Qed.

Lemma row_from_cost_bad_cost uid row name address area k db :
  PyDecimal.of_str (price_raw_of row) = Raise InvalidOperation ->
  row_from_cost uid row name address area k db = (db, Ok k).
Proof. intros H. unfold row_from_cost. by rewrite H. Qed.

(** With a cost that [Decimal] accepts, texts without NUL, no listing
    under the key and a table that takes the new listing, the rest of the
    loop body inserts the listing and counts it. *)
Lemma row_from_cost_inserts uid row name address area k db cost :
  PyDecimal.of_str (price_raw_of row) = Ok cost ->
  has_nul name = false -> has_nul address = false ->
  has_nul (type_of row) = false ->
  ~ Exists (same_key name address uid) (apartaments db) ->
  apartaments_check db
    (mkApartment (apartaments_next_id db) uid name address (Some area)
                 (Some cost) (Some 0) (Some (type_of row))) = Accepted ->
  row_from_cost uid row name address area k db
  = (add_listing db
       (mkApartment (apartaments_next_id db) uid name address (Some area)
                    (Some cost) (Some 0) (Some (type_of row))),
     Ok (k + 1)).
Proof.
  intros Hc Hnn Hna Hnt Hex Hchk. unfold row_from_cost. rewrite Hc.
  unfold bind, select_listing. rewrite Hnn, Hna. simpl.
  rewrite bool_decide_eq_false_2 by done.
  unfold insert_listing. rewrite Hnn, Hna, Hnt. simpl. by rewrite Hchk.
Qed.

Lemma row_step_inserts uid row k db area cost :
  name_of row <> [] -> address_of row <> [] ->
  int_float (area_raw_of row) = Ok area ->
  PyDecimal.of_str (price_raw_of row) = Ok cost ->
  ~ Exists (same_key (name_of row) (address_of row) uid) (apartaments db) ->
  storable db uid row area cost ->
  row_step uid row k db
  = (add_listing db (listing_of db uid row area cost), Ok (k + 1)).
Proof.
  intros Hn Ha Hf Hc Hex (Hnn & Hna & Hnt & Hchk). unfold row_step.
  apply truthy_true in Hn, Ha. rewrite Hn, Ha. simpl. rewrite Hf.
  by apply row_from_cost_inserts.
Qed.

Lemma row_step_duplicate uid row area k db :
  int_float (area_raw_of row) = Ok area ->
  has_nul (name_of row) = false -> has_nul (address_of row) = false ->
  Exists (same_key (name_of row) (address_of row) uid) (apartaments db) ->
  row_step uid row k db = (db, Ok k).
Proof.
  intros Ha Hnn Hna Hex. unfold row_step. destruct (_ || _); [done|].
  rewrite Ha. unfold row_from_cost.
  destruct (PyDecimal.of_str _) as [c|e] eqn:Ec.
  - unfold bind, select_listing. rewrite Hnn, Hna. simpl.
    by rewrite bool_decide_eq_true_2.
  - by rewrite (Decimal_raises _ _ Ec).
Qed.

(** A row that one run of the loop body got past without raising is
    skipped in every store that holds the listings of the store the body
    left behind. *)
Lemma row_step_settled uid row k db db1 k1 :
  row_step uid row k db = (db1, Ok k1) ->
  forall db2 k2, apartaments db1 ⊆ apartaments db2 ->
  row_step uid row k2 db2 = (db2, Ok k2).
Proof.
  intros Hrun db2 k2 Hsub.
  pose proof (row_step_spec uid row k db) as Hout. rewrite Hrun in Hout.
  outcome_cases Hout;
    subst.
  - by apply row_step_blank.
  - by apply row_step_bad_area.
  - unfold row_step. destruct (_ || _); [done|].
    rewrite Hf. by apply row_from_cost_bad_cost.
  - eapply row_step_duplicate; [done..|].
    rewrite Exists_exists in *. destruct Hex as (a & Hin & Hk).
    exists a. split; [|done]. by apply Hsub.
  - eapply row_step_duplicate; [done..|].
    rewrite Exists_exists. eexists. split.
    + apply Hsub. simpl. apply elem_of_app. right.
      apply list_elem_of_singleton. reflexivity.
    + done.
Qed.

Lemma row_insert_created uid row db area cost :
  name_of row <> [] -> address_of row <> [] ->
  int_float (area_raw_of row) = Ok area ->
  PyDecimal.of_str (price_raw_of row) = Ok cost ->
  created_from uid row (listing_of db uid row area cost).
Proof.
  intros Hn Ha Hf Hc. unfold created_from, listing_of; simpl.
  repeat split; eauto.
Qed.

(** When the loop body raises it leaves the tables as they were; what it
    raises is [OverflowError] for an infinite area, [ValueError] for a
    NUL character, or the error of the database. *)
Lemma row_step_raises uid row k db db' e :
  row_step uid row k db = (db', Raise e) ->
  users db' = users db /\ apartaments db' = apartaments db /\
  pictures db' = pictures db /\
  (e = OverflowError \/ e = ValueError \/ e = DatabaseError).
Proof.
  intros Hrun. pose proof (row_step_spec uid row k db) as Hout.
  outcome_cases Hout;
    rewrite Hrun in Heq; try discriminate Heq;
    injection Heq as <- <-; try destruct drawn; split_and!; auto.
Qed.

(** What a run of the loop leaves behind: the listings it added, in the
    order of their rows. *)
Lemma for_rows_delta uid rows :
  forall k db db' r,
  for_rows uid rows k db = (db', r) ->
  exists new,
    apartaments db' = apartaments db ++ new /\
    users db' = users db /\ pictures db' = pictures db /\
    Forall (fun a => exists row, row ∈ rows /\ created_from uid row a) new /\
    Forall (fun a => ~ Exists (same_key (apt_name a) (apt_adress a) uid)
                              (apartaments db)) new /\
    NoDup (key_of <$> new) /\
    (forall n, r = Ok n -> n = k + Z.of_nat (length new)).
Proof.
  induction rows as [|row rows IH]; intros k db db' r Hrun.
  - injection Hrun as <- <-. exists []. rewrite app_nil_r.
    repeat split; try constructor. intros n [= <-]. simpl. lia.
  - rewrite for_rows_cons in Hrun.
    destruct (row_step uid row k db) as [dba [ka|e]] eqn:Hstep.
    2:{ (* the loop body raised: the loop stops here *)
        injection Hrun as <- <-.
        destruct (row_step_raises _ _ _ _ _ _ Hstep) as (Hu & Hap & Hp & _).
        exists []. rewrite app_nil_r.
        repeat split; try constructor; try done. }
    pose proof (row_step_spec uid row k db) as Hout.
    assert (Hskip : (db, Ok k) = (dba, Ok ka) ->
      exists new,
        apartaments db' = apartaments db ++ new /\
        users db' = users db /\ pictures db' = pictures db /\
        Forall (fun a => exists row0, row0 ∈ row :: rows /\ created_from uid row0 a) new /\
        Forall (fun a => ~ Exists (same_key (apt_name a) (apt_adress a) uid)
                                  (apartaments db)) new /\
        NoDup (key_of <$> new) /\
        (forall n, r = Ok n -> n = k + Z.of_nat (length new))).
    { intros [= <- <-].
      destruct (IH _ _ _ _ Hrun) as (new & ? & ? & ? & Hc & ? & ? & ?).
      exists new. repeat split; try done.
      eapply Forall_impl; [exact Hc|]. intros a (row0 & ? & ?).
      exists row0. split; [by apply list_elem_of_further|done]. }
    outcome_cases Hout;
      rewrite Hstep in Heq; try (by apply Hskip); try discriminate Heq.
    (* the row was inserted *)
    injection Heq as <- <-.
    destruct (IH _ _ _ _ Hrun) as (new & Hap & Hu & Hp & Hcr & Hfresh & Hnd & Hcount).
    set (a := listing_of db uid row area cost) in *.
    exists (a :: new). simpl in Hap, Hu, Hp.
    split; [by rewrite Hap, <- app_assoc|].
    split; [done|]. split; [done|].
    split.
    { constructor.
      - exists row. split; [by apply list_elem_of_here|].
        by apply row_insert_created.
      - eapply Forall_impl; [exact Hcr|]. intros a' (row0 & ? & ?).
        exists row0. split; [by apply list_elem_of_further|done]. }
    split.
    { constructor; [exact Hex|].
      eapply Forall_impl; [exact Hfresh|]. intros a' Hn' Hex'.
      apply Hn'. simpl. apply Exists_app. by left. }
    split.
    { rewrite fmap_cons. constructor; [|done].
      intros Hin. apply list_elem_of_fmap in Hin as (a' & Hk & Hin).
      rewrite Forall_forall in Hfresh. apply (Hfresh a' Hin).
      simpl. apply Exists_app. right. constructor.
      unfold key_of in Hk. injection Hk as Hk1 Hk2 Hk3.
      pose proof Hcr as Hcr'. rewrite Forall_forall in Hcr'.
      destruct (Hcr' a' Hin) as (row0 & _ & Hu' & _).
      unfold same_key. subst a. simpl in *. split_and!; congruence. }
    intros n Hn0. rewrite (Hcount n Hn0). simpl. lia.
Qed.

Lemma for_rows_settled uid rows :
  forall k db db1 k1,
  for_rows uid rows k db = (db1, Ok k1) ->
  forall db2 k2, apartaments db1 ⊆ apartaments db2 ->
  for_rows uid rows k2 db2 = (db2, Ok k2).
Proof.
  induction rows as [|row rows IH]; intros k db db1 k1 Hrun db2 k2 Hsub; [done|].
  rewrite for_rows_cons in Hrun |- *.
  destruct (row_step uid row k db) as [dba [ka|e]] eqn:Hstep; [|done].
  destruct (for_rows_delta _ _ _ _ _ _ Hrun) as (new & Hap & _).
  rewrite (row_step_settled _ _ _ _ _ _ Hstep db2 k2).
  - by eapply IH.
  - intros a Ha. apply Hsub. rewrite Hap. apply elem_of_app. by left.
Qed.

Lemma for_rows_settled_rows uid rows k db db1 k1 :
  for_rows uid rows k db = (db1, Ok k1) ->
  Forall (fun row => forall k2, row_step uid row k2 db1 = (db1, Ok k2)) rows.
Proof.
  revert k db. induction rows as [|row rows IH]; intros k db Hrun; [constructor|].
  rewrite for_rows_cons in Hrun.
  destruct (row_step uid row k db) as [dba [ka|e]] eqn:Hstep; [|done].
  destruct (for_rows_delta _ _ _ _ _ _ Hrun) as (new & Hap & _).
  constructor; [|by eapply IH].
  intros k2. eapply row_step_settled; [exact Hstep|].
  intros a Ha. rewrite Hap. apply elem_of_app. by left.
Qed.

(** What the loop raises is what its body raises. *)
Lemma for_rows_raises uid rows :
  forall k db db' e,
  for_rows uid rows k db = (db', Raise e) ->
  e = OverflowError \/ e = ValueError \/ e = DatabaseError.
Proof.
  induction rows as [|row rows IH]; intros k db db' e Hrun; [done|].
  rewrite for_rows_cons in Hrun.
  destruct (row_step uid row k db) as [dba [ka|e']] eqn:Hstep.
  - by eapply IH.
  - injection Hrun as _ <-. by apply row_step_raises in Hstep as (_ & _ & _ & ?).
Qed.

Lemma ensure_user_exists_users db db' uid :
  users db' = users db -> ensure_user_exists db' uid = ensure_user_exists db uid.
Proof. unfold ensure_user_exists. by intros ->. Qed.

(** [insert_apartments_from_csv] seen from its result: the file is
    missing and nothing was done, or the loop ran over the rows that
    could be read, and the result is its result unless reading failed. *)
Lemma insert_from_csv_loop fs csv_path uid db db' r :
  insert_apartments_from_csv fs csv_path uid db = (db', r) ->
  (fs (as_posix csv_path) = None /\ db' = db /\ r = Raise FileNotFoundError) \/
  (exists rows read r',
     fs (as_posix csv_path) = Some rows /\
     read `prefix_of` rows /\
     for_rows uid read 0 db = (db', r') /\
     ((fs_failure fs (as_posix csv_path) = None /\ read = rows /\ r = r') \/
      (exists n name, fs_failure fs (as_posix csv_path) = Some (n, name) /\
                      (r = r' \/ r = Raise (OtherError name)) /\
                      forall m, r <> Ok m))).
Proof.
  unfold insert_apartments_from_csv.
  destruct (fs (as_posix csv_path)) as [rows|] eqn:Hfs.
  2:{ intros [= <- <-]. by left. }
  destruct (fs_failure fs (as_posix csv_path)) as [[n name]|] eqn:Hfail.
  - unfold bind, raise.
    destruct (for_rows uid (take n rows) 0 db) as [dbx [m|e]] eqn:Hrun;
      intros [= <- <-]; right; exists rows, (take n rows); eexists;
      (split; [done|]); (split; [apply prefix_take|]); (split; [exact Hrun|]);
      right; exists n, name; split_and!; try done; auto.
  - intros Hrun. right. exists rows, rows, r. split_and!; try done. by left.
Qed.

(** [import_csv] seen from its result. *)
Lemma import_csv_ok fs uid csv_path db db1 resp :
  import_csv fs uid csv_path db = (db1, Ok resp) ->
  exists path rows,
    path = match csv_path with
           | Some v => if truthy v then Path v else SERVER_CSV
           | None => SERVER_CSV
           end /\
    ensure_user_exists db uid = true /\
    fs (as_posix path) = Some rows /\
    source_csv resp = as_posix path /\
    for_rows uid rows 0 db = (db1, Ok (inserted_apartments resp)) /\
    fs_failure fs (as_posix path) = None.
Proof.
  unfold import_csv.
  destruct (ensure_user_exists db uid) eqn:Hu; [|done]. simpl.
  set (path := match csv_path with Some v => _ | None => _ end).
  destruct (fs (as_posix path)) as [rows|] eqn:Hfs.
  2:{ by rewrite bool_decide_eq_false_2 by (by intros [? ?]). }
  rewrite bool_decide_eq_true_2 by eauto. simpl.
  destruct (insert_apartments_from_csv fs path uid db) as [db' [n|e]] eqn:Hrun; [|done].
  intros [= <- <-].
  destruct (insert_from_csv_loop _ _ _ _ _ _ Hrun)
    as [(_ & _ & ?) | (rows' & read & r' & Hfs' & _ & Hloop & Hcase)]; [done|].
  rewrite Hfs in Hfs'. injection Hfs' as <-.
  destruct Hcase as [(Hnone & -> & <-) | (m & name & _ & _ & Hno)].
  - exists path, rows. by simpl.
  - by destruct (Hno n).
Qed.

(** *** Facts about single fields *)


Lemma first_nonempty_or2 a b :
  or_str a (or_str b []) = first_nonempty [a; b].
Proof. by destruct a as [[|? ?]|], b as [[|? ?]|]. Qed.

Lemma first_nonempty_falsy a b :
  truthy_opt a = false -> truthy_opt b = false -> first_nonempty [a; b] = [].
Proof. by destruct a as [[|? ?]|], b as [[|? ?]|]. Qed.



(** C2, as stated, fails: the cost text "NaN" is no decimal number, yet
    [Decimal] accepts it and the row is inserted with that cost. *)
Lemma C2_counterexample :
  PyDecimal.of_str (price_raw_of row_nan_cost) = Ok (PyDecimal.NaN false false 0) /\
  exists a db',
    row_step 1 row_nan_cost 0 db_one_user = (db', Ok 1) /\
    apartaments db' = [a] /\
    apt_cost a = Some (PyDecimal.NaN false false 0).
Proof.
  split; [vm_compute; reflexivity|].
  do 2 eexists. vm_compute. repeat split; reflexivity.
Qed.

(** C2, amended: the cost text is the first non-empty of price_usd and
    cost with commas removed and white space trimmed; [Decimal] converts
    it exactly, "1,234.50" giving coefficient 123450 and exponent -2, that
    is 1234.50, and the texts "NaN" and "Infinity" giving the special
    values; when the cost is missing or [Decimal] rejects the text, the
    rest of the loop body continues with the store and the count
    unchanged, and the row is never inserted; when [Decimal] accepts the
    text, the rest of the loop body looks the listing up and, if there is
    none and the store takes the new one, inserts it with the converted
    value as its cost; every row the loop body counts is stored with the
    converted value as its cost. *)
Theorem C2_cost_field (row : Row) :
  price_raw_of row
    = strip (remove_char "," (first_nonempty [get row "price_usd"; get row "cost"])) /\
  (get row "price_usd" = Some $"1,234.50" ->
   PyDecimal.of_str (price_raw_of row) = Ok (PyDecimal.Finite false 123450 (-2))) /\
  Qeq (PyDecimal.to_Q false 123450 (-2)) (123450 # 100) /\
  (price_raw_of row = $"NaN" ->
   PyDecimal.of_str (price_raw_of row) = Ok (PyDecimal.NaN false false 0)) /\
  (price_raw_of row = $"Infinity" ->
   PyDecimal.of_str (price_raw_of row) = Ok (PyDecimal.Infinity false)) /\
  (truthy_opt (get row "price_usd") = false ->
   truthy_opt (get row "cost") = false ->
   PyDecimal.of_str (price_raw_of row) = Raise InvalidOperation) /\
  (PyDecimal.of_str (price_raw_of row) = Raise InvalidOperation ->
   forall uid k db,
     (forall name address area,
        row_from_cost uid row name address area k db = (db, Ok k)) /\
     (row_step uid row k db).1 = db /\
     (forall k', (row_step uid row k db).2 = Ok k' -> k' = k)) /\
  (forall uid name address area k db cost,
     PyDecimal.of_str (price_raw_of row) = Ok cost ->
     has_nul name = false -> has_nul address = false ->
     has_nul (type_of row) = false ->
     ~ Exists (same_key name address uid) (apartaments db) ->
     apartaments_check db
       (mkApartment (apartaments_next_id db) uid name address (Some area)
                    (Some cost) (Some 0) (Some (type_of row))) = Accepted ->
     row_from_cost uid row name address area k db
     = (add_listing db
          (mkApartment (apartaments_next_id db) uid name address (Some area)
                       (Some cost) (Some 0) (Some (type_of row))),
        Ok (k + 1))) /\
  (forall uid k db db' k',
     row_step uid row k db = (db', Ok k') -> k' <> k ->
     exists area cost,
       PyDecimal.of_str (price_raw_of row) = Ok cost /\
       db' = add_listing db (listing_of db uid row area cost)).
Proof.
  assert (Hraw : price_raw_of row
    = strip (remove_char "," (first_nonempty [get row "price_usd"; get row "cost"]))).
  { unfold price_raw_of. by rewrite first_nonempty_or2. }
  split; [exact Hraw|]. split_and!.
  - intros H. rewrite Hraw, H. vm_compute. reflexivity.
  - vm_compute. reflexivity.
  - intros ->. vm_compute. reflexivity.
  - intros ->. vm_compute. reflexivity.
  - intros H1 H2. rewrite Hraw, (first_nonempty_falsy _ _ H1 H2).
    vm_compute. reflexivity.
  - intros Hbad uid k db. split; [|].
    + intros. by apply row_from_cost_bad_cost.
    + pose proof (row_step_spec uid row k db) as Hout.
      outcome_cases Hout;
        simpl; try (split; [done|by intros ? [= <-]]); try congruence.
  - intros uid name address area0 k db cost0. apply row_from_cost_inserts.
  - intros uid k db db' k' Hrun Hk.
    pose proof (row_step_spec uid row k db) as Hout.
    outcome_cases Hout;
      rewrite Hrun in Heq; try discriminate Heq; try congruence.
    exists area, cost. split; congruence.
Qed.

Lemma C2_witness :
  PyDecimal.of_str (price_raw_of row_loft) = Ok (PyDecimal.Finite false 123450 (-2)) /\
  row_from_cost 1 row_loft $"Loft" $"1 Main St" 45 0 db_one_user
    = (add_listing db_one_user
         (mkApartment (apartaments_next_id db_one_user) 1 $"Loft" $"1 Main St"
            (Some 45) (Some (PyDecimal.Finite false 123450 (-2))) (Some 0)
            (Some (type_of row_loft))),
       Ok (0 + 1)) /\
  row_from_cost 1 row_no_cost $"Barn" $"5 Farm Rd" 120 0 db_one_user
    = (db_one_user, Ok 0).
Proof.
  split_and!.
  - apply (proj1 (proj2 (C2_cost_field row_loft))). vm_compute. reflexivity.
  - apply (proj1 (proj2 (proj2 (proj2 (proj2 (proj2 (proj2 (proj2
             (C2_cost_field row_loft))))))))
             1 $"Loft" $"1 Main St" 45 0 db_one_user
             (PyDecimal.Finite false 123450 (-2))).
    + vm_compute. reflexivity.
    + vm_compute. reflexivity.
    + vm_compute. reflexivity.
    + vm_compute. reflexivity.
    + apply (bool_decide_unpack _). vm_compute. exact I.
    + vm_compute. reflexivity.
  - apply (proj1 (proj2 (proj2 (proj2 (proj2 (proj2 (proj2
             (C2_cost_field row_no_cost)))))))).
    vm_compute. reflexivity.
Defined.

(** *** Import: re-runs, duplicates, created listings *)

(** When an import has returned its count, importing the same file for
    the same owner again returns the count 0 and leaves the store as it
    was: every row of the file is skipped and not counted. *)
Lemma reimport_after_success fs uid csv_path db db1 resp :
  import_csv fs uid csv_path db = (db1, Ok resp) ->
  import_csv fs uid csv_path db1
    = (db1, Ok (mkImportResponse (source_csv resp) 0)) /\
  (forall rows, fs (source_csv resp) = Some rows ->
     Forall (fun row => forall k, row_step uid row k db1 = (db1, Ok k)) rows).
Proof.
  intros Hfirst.
  destruct (import_csv_ok _ _ _ _ _ _ Hfirst)
    as (path & rows & Hpath & Hu & Hfs & Hsrc & Hrun & Hnf).
  destruct (for_rows_delta _ _ _ _ _ _ Hrun) as (new & Hap & Husers & _).
  split.
  - unfold import_csv. rewrite (ensure_user_exists_users _ _ _ Husers), Hu. simpl.
    rewrite <- Hpath. unfold insert_apartments_from_csv. rewrite Hfs, Hnf.
    rewrite bool_decide_eq_true_2 by eauto. simpl.
    rewrite (for_rows_settled _ _ _ _ _ _ Hrun db1 0) by done.
    by rewrite Hsrc.
  - intros rows' Hfs'. rewrite Hsrc, Hfs in Hfs'. injection Hfs' as <-.
    by eapply for_rows_settled_rows.
Qed.

Example reimport_after_success_ex :
  (import_csv fs_reimport 1 None db_one_user).2
    = Ok (mkImportResponse $"/srv/homepass/homes.csv" 2) /\
  import_csv fs_reimport 1 None (import_csv fs_reimport 1 None db_one_user).1
    = ((import_csv fs_reimport 1 None db_one_user).1,
       Ok (mkImportResponse $"/srv/homepass/homes.csv" 0)).
Proof. split; vm_compute; reflexivity. Qed.

(** C1: re-importing a file that holds a row with an infinite area does
    not skip its rows and return the count 0: the first import raises
    [OverflowError], and so does the second; and a row whose name,
    address and owner are stored already is not skipped when its area is
    infinite, because the area is converted before the listing is looked
    up. *)
Theorem C1_reimport_fails_on_infinite_area :
  (import_csv fs_infinite 1 None db_one_user).2 = Raise OverflowError /\
  (import_csv fs_infinite 1 None (import_csv fs_infinite 1 None db_one_user).1).2
    = Raise OverflowError /\
  Exists (same_key (name_of row_infinite_area) (address_of row_infinite_area) 1)
         (apartaments db_palace) /\
  row_step 1 row_infinite_area 0 db_palace = (db_palace, Raise OverflowError).
Proof.
  split_and!.
  - vm_compute. reflexivity.
  - vm_compute. reflexivity.
  - apply (bool_decide_unpack _). vm_compute. exact I.
  - vm_compute. reflexivity.
Qed.

(** C4: a row whose area is an infinity ("inf", or a number too large for
    a float) is not skipped: [int] raises [OverflowError], which the
    [except (ValueError, TypeError)] clause does not catch, and the loop
    stops before the rows that follow. *)
Theorem C4_infinite_area_aborts_import :
  PyFloat.of_str (area_raw_of row_infinite_area) = Ok (PyFloat.Inf false) /\
  for_rows 1 [row_infinite_area; row_loft] 0 db_one_user
    = (db_one_user, Raise OverflowError) /\
  (exists db', for_rows 1 [row_loft] 0 db_one_user = (db', Ok 1)).
Proof.
  split; [vm_compute; reflexivity|].
  split; [vm_compute; reflexivity|].
  eexists. vm_compute. reflexivity.
Qed.

(** C8: with an existing owner and an existing file the import can still
    fail: a row with an infinite area makes the handler raise
    [OverflowError] instead of returning a count; the tables are left as
    they were, and the identifier drawn for the row before it is spent. *)
Theorem C8_import_fails_on_infinite_area :
  ensure_user_exists db_one_user 1 = true /\
  fs_infinite (as_posix SERVER_CSV) = Some [row_loft; row_infinite_area] /\
  import_csv fs_infinite 1 None db_one_user
  = (mkDatabase (users db_one_user) (apartaments db_one_user)
                (pictures db_one_user) 2 (apartaments_check db_one_user),
     Raise OverflowError).
Proof.
  split; [vm_compute; reflexivity|].
  split; [reflexivity|].
  vm_compute. reflexivity.
Qed.

(** C9, as stated, fails: a row with area "-5" is stored with area -5. *)
Lemma C9_counterexample :
  exists a db',
    for_rows 1 [row_negative_area] 0 db_one_user = (db', Ok 1) /\
    apartaments db' = [a] /\
    apt_area a = Some (-5).
Proof. do 2 eexists. vm_compute. repeat split; reflexivity. Qed.

Lemma type_of_default row :
  truthy_opt (get row "type") = false -> type_of row = $"Flat".
Proof.
  unfold type_of. destruct (get row "type") as [[|c s]|]; simpl; try done.
Qed.

(** C9, amended: every listing the import adds comes from a row of the
    file; its owner is the importing owner, its name and address are the
    non-empty trimmed fields, its area is an integer, of either sign: the
    value of [int(float(...))] on the area text, its cost the value
    [Decimal] gave, its token count 0, and its type is "Flat" when the
    row has no type. *)
Theorem C9_created_listings (fs : FileSystem) csv_path uid db db' r rows :
  fs (as_posix csv_path) = Some rows ->
  insert_apartments_from_csv fs csv_path uid db = (db', r) ->
  exists new,
    apartaments db' = apartaments db ++ new /\
    Forall (fun a => exists row,
              row ∈ rows /\ created_from uid row a /\
              (truthy_opt (get row "type") = false -> apt_type a = Some $"Flat"))
           new.
Proof.
  intros Hfs Hrun.
  destruct (insert_from_csv_loop _ _ _ _ _ _ Hrun)
    as [(Hnone & _) | (rows' & read & r' & Hfs' & Hread & Hloop & _)];
    [congruence|].
  rewrite Hfs in Hfs'. injection Hfs' as <-.
  destruct (for_rows_delta _ _ _ _ _ _ Hloop) as (new & Hap & _ & _ & Hcr & _).
  exists new. split; [done|].
  eapply Forall_impl; [exact Hcr|]. intros a (row & Hin & Hc).
  exists row. split_and!; try done.
  { destruct Hread as [rest ->]. apply elem_of_app. by left. }
  intros Ht. destruct Hc as (_ & _ & _ & _ & _ & _ & _ & _ & ->).
  by rewrite type_of_default.
Qed.

Lemma C9_witness :
  exists new,
    apartaments (insert_apartments_from_csv fs_negative SERVER_CSV 1 db_one_user).1
      = apartaments db_one_user ++ new /\
    Forall (fun a => exists row,
              row ∈ [row_negative_area; row_loft] /\ created_from 1 row a /\
              (truthy_opt (get row "type") = false -> apt_type a = Some $"Flat"))
           new.
Proof.
  apply (C9_created_listings fs_negative SERVER_CSV 1 db_one_user
           (insert_apartments_from_csv fs_negative SERVER_CSV 1 db_one_user).1
           (insert_apartments_from_csv fs_negative SERVER_CSV 1 db_one_user).2
           [row_negative_area; row_loft]).
  - reflexivity.
  - vm_compute. reflexivity.
Defined.

(** C10: whatever the store holds, the listings one invocation adds have
    pairwise different (name, address, owner) keys, none of which was in
    the store before; so rows of one file that share a key add at most one
    listing. *)
Theorem C10_in_file_duplicates_inserted_once fs csv_path uid db db' r :
  insert_apartments_from_csv fs csv_path uid db = (db', r) ->
  exists new,
    apartaments db' = apartaments db ++ new /\
    NoDup (key_of <$> new) /\
    Forall (fun a => apt_user_id a = uid /\
                     ~ Exists (same_key (apt_name a) (apt_adress a) uid)
                              (apartaments db)) new /\
    (forall name address,
       (length (filter (same_key name address uid) new) <= 1)%nat).
Proof.
  intros Hrun.
  destruct (insert_from_csv_loop _ _ _ _ _ _ Hrun)
    as [(_ & -> & _) | (rows & read & r' & _ & _ & Hloop & _)].
  { exists []. rewrite app_nil_r.
    repeat split; try constructor. simpl. lia. }
  destruct (for_rows_delta _ _ _ _ _ _ Hloop) as (new & Hap & _ & _ & Hcr & Hfresh & Hnd & _).
  exists new. split; [done|]. split; [done|]. split.
  - rewrite Forall_forall in *. intros a Ha. split; [|by apply Hfresh].
    destruct (Hcr a Ha) as (row & _ & Hu & _). done.
  - intros name address. clear -Hnd.
    induction new as [|a new IH]; simpl; [lia|].
    rewrite fmap_cons in Hnd. apply NoDup_cons in Hnd as [Hnotin Hnd].
    rewrite filter_cons. destruct (decide (same_key name address uid a)) as [Hk|Hk].
    + simpl. assert (filter (same_key name address uid) new = []) as ->; [|simpl; lia].
      destruct (filter _ new) as [|a' l] eqn:Hf; [done|]. exfalso.
      assert (Ha' : a' ∈ filter (same_key name address uid) new)
        by (rewrite Hf; apply list_elem_of_here).
      apply list_elem_of_filter in Ha' as [Hk' Hin].
      apply Hnotin. apply list_elem_of_fmap. exists a'. split; [|done].
      unfold same_key in Hk, Hk'. unfold key_of.
      destruct Hk as (-> & -> & ->), Hk' as (-> & -> & ->). done.
    + by apply IH.
Qed.

Lemma C10_witness :
  exists new,
    apartaments (insert_apartments_from_csv fs_twice SERVER_CSV 1 db_one_user).1
      = apartaments db_one_user ++ new /\
    NoDup (key_of <$> new) /\
    Forall (fun a => apt_user_id a = 1 /\
                     ~ Exists (same_key (apt_name a) (apt_adress a) 1)
                              (apartaments db_one_user)) new /\
    (forall name address,
       (length (filter (same_key name address 1) new) <= 1)%nat).
Proof.
  apply (C10_in_file_duplicates_inserted_once fs_twice SERVER_CSV 1 db_one_user
           (insert_apartments_from_csv fs_twice SERVER_CSV 1 db_one_user).1
           (insert_apartments_from_csv fs_twice SERVER_CSV 1 db_one_user).2).
  vm_compute. reflexivity.
Defined.

(** *** What holds around the area field and the handlers *)

(** A row whose area text is missing or is not a number ([float] raises
    [ValueError], or gives a NaN) is skipped, and the loop goes on with
    the rows that follow. *)
Lemma area_value_error_skipped uid row rows k db :
  int_float (area_raw_of row) = Raise ValueError ->
  for_rows uid (row :: rows) k db = for_rows uid rows k db.
Proof. intros H. by rewrite for_rows_cons, row_step_bad_area. Qed.

Lemma area_missing_value_error row :
  truthy_opt (get row "area_m2") = false ->
  truthy_opt (get row "area") = false ->
  int_float (area_raw_of row) = Raise ValueError.
Proof.
  intros H1 H2. unfold area_raw_of.
  rewrite first_nonempty_or2, (first_nonempty_falsy _ _ H1 H2).
  vm_compute. reflexivity.
Qed.

(** The area of a finite float is its value truncated towards zero. *)
Lemma to_int_truncates neg m e :
  0 <= m ->
  exists a, PyFloat.to_int (PyFloat.Fin neg m e) = Ok (if neg then - a else a) /\
            0 <= a /\
            (0 <= e -> a = m * 2 ^ e) /\
            (e < 0 -> a * 2 ^ (- e) <= m < (a + 1) * 2 ^ (- e)).
Proof.
  intros Hm. simpl. destruct (0 <=? e) eqn:He.
  - apply Z.leb_le in He. eexists. split_and!; [done|nia|done|lia].
  - apply Z.leb_gt in He. eexists. split_and!; [done| |lia|].
    + apply Z.div_pos; [done|]. apply Z.pow_pos_nonneg; lia.
    + intros _. assert (0 < 2 ^ (- e)) by (apply Z.pow_pos_nonneg; lia).
      pose proof (Z.mul_div_le m (2 ^ (- e)) ltac:(done)).
      pose proof (Z.mul_succ_div_gt m (2 ^ (- e)) ltac:(done)). lia.
Qed.

(** A row with a name and an address whose area text [float] reads as an
    infinity stops the loop: the rows after it are not looked at. *)
Lemma infinite_area_aborts uid row rows k db neg :
  name_of row <> [] -> address_of row <> [] ->
  PyFloat.of_str (area_raw_of row) = Ok (PyFloat.Inf neg) ->
  for_rows uid (row :: rows) k db = (db, Raise OverflowError).
Proof.
  intros Hn Ha Hf. rewrite for_rows_cons. unfold row_step.
  apply truthy_true in Hn, Ha. rewrite Hn, Ha. simpl.
  unfold int_float. by rewrite Hf.
Qed.

(** [import_csv] answers 404 exactly when the owner or the file is
    missing. *)
Lemma import_csv_not_found_iff fs uid csv_path db :
  let path := match csv_path with
              | Some v => if truthy v then Path v else SERVER_CSV
              | None => SERVER_CSV
              end in
  (exists detail, (import_csv fs uid csv_path db).2 = Raise (HTTPException 404 detail))
  <-> (ensure_user_exists db uid = false \/ fs (as_posix path) = None).
Proof.
  intros path. unfold import_csv. fold path.
  destruct (ensure_user_exists db uid); simpl.
  2:{ split; [by left|]. intros _. by eexists. }
  destruct (fs (as_posix path)) as [rows|] eqn:Hfs.
  - rewrite bool_decide_eq_true_2 by eauto. simpl.
    split; [|by intros [|]].
    intros [detail H]. exfalso.
    destruct (insert_apartments_from_csv fs path uid db) as [db' [n|e]] eqn:Hrun; [done|].
    simpl in H. injection H as ->.
    destruct (insert_from_csv_loop _ _ _ _ _ _ Hrun)
      as [(Hnone & _) | (rows' & read & r' & _ & _ & Hloop & Hcase)]; [congruence|].
    destruct Hcase as [(_ & _ & <-) | (m & name & _ & [<- | [=]] & _)];
      by destruct (for_rows_raises _ _ _ _ _ _ Hloop) as [|[|]].
  - rewrite bool_decide_eq_false_2 by (by intros [? ?]). simpl.
    split; [by right|]. intros _. by eexists.
Qed.

(** A title with a NUL character stops the import: the lookup raises
    [ValueError] outside the two [try] blocks. *)
Example nul_in_title_aborts :
  import_csv (fs_homes [row_nul_title]) 1 None db_one_user
  = (db_one_user, Raise ValueError).
Proof. vm_compute. reflexivity. Qed.

(** An area beyond the range of its column stops the import: the listing
    added before it is rolled back, the identifiers drawn stay drawn. *)
Example out_of_range_area_aborts :
  int_float (area_raw_of row_huge_area) = Ok 99999999999999991611392 /\
  (import_csv (fs_homes [row_loft; row_huge_area]) 1 None db_int4).2
    = Raise DatabaseError /\
  apartaments (import_csv (fs_homes [row_loft; row_huge_area]) 1 None db_int4).1 = [] /\
  apartaments_next_id
    (import_csv (fs_homes [row_loft; row_huge_area]) 1 None db_int4).1 = 3.
Proof. vm_compute. repeat split; reflexivity. Qed.

(** A file that cannot be read to its end stops the import after the
    rows read so far. *)
Example read_failure_aborts :
  (import_csv fs_broken 1 None db_one_user).2
    = Raise (OtherError "UnicodeDecodeError") /\
  apartaments (import_csv fs_broken 1 None db_one_user).1 = [].
Proof. vm_compute. repeat split; reflexivity. Qed.

(** [Decimal] rejects a number beyond its exponent range, and the row is
    skipped. *)
Example cost_beyond_exponent_range :
  PyDecimal.of_str $"1e1000000000000000000" = Raise InvalidOperation /\
  PyDecimal.of_str $"1e999999999999999999"
    = Ok (PyDecimal.Finite false 1 999999999999999999).
Proof. vm_compute. split; reflexivity. Qed.

(** [get_user] answers 404 for an identifier no user has, and a user with
    that identifier otherwise. *)
Lemma get_user_not_found db uid :
  (forall u, u ∈ users db -> user_id u <> uid) ->
  get_user db uid = Raise (HTTPException 404 $"User not found").
Proof.
  intros H. unfold get_user.
  destruct (filter _ (users db)) as [|u l] eqn:Hf; [done|]. exfalso.
  assert (Hu : u ∈ filter (fun u => user_id u = uid) (users db))
    by (rewrite Hf; apply list_elem_of_here).
  apply list_elem_of_filter in Hu as [Hid Hin]. by apply (H u).
Qed.

Lemma get_user_found db uid u :
  get_user db uid = Ok u -> u ∈ users db /\ user_id u = uid.
Proof.
  unfold get_user. destruct (filter _ (users db)) as [|u' l] eqn:Hf; [done|].
  intros [= ->].
  assert (Hu : u ∈ filter (fun u => user_id u = uid) (users db))
    by (rewrite Hf; apply list_elem_of_here).
  by apply list_elem_of_filter in Hu as [Hid Hin].
Qed.

(** Two rows of one file with the same name and address after trimming:
    the second sees the listing the first one added on the same cursor. *)
Example in_file_duplicate_counted_once :
  (insert_apartments_from_csv fs_twice SERVER_CSV 1 db_one_user).2 = Ok 1.
Proof. vm_compute. reflexivity. Qed.

(** The fallback looks at cells before they are trimmed: a blank title
    hides the name column, and the row is skipped. *)
Example blank_title_hides_name :
  name_of (cells [("title", "  "); ("name", "Loft")]%string) = [].
Proof. vm_compute. reflexivity. Qed.

(** The scenario of the specification: three valid distinct rows, one row
    that duplicates a stored listing and one with a blank address. *)
Example import_scenario :
  let stored := mkApartment 1 1 $"Barn" $"5 Farm Rd" None None None None in
  let db := mkDatabase [mkUser 1 $"0xabc" $"Ada" $"Lovelace"] [stored] [] 2
                       (fun _ => Accepted) in
  let barn := cells [("title", "Barn"); ("address", "5 Farm Rd");
                     ("area", "120"); ("price_usd", "7")]%string in
  let fs := fs_homes [row_loft; barn; row_negative_area; row_blank_address;
                      cells [("url", "http://x/9"); ("address", "9 Elm St");
                             ("area_m2", "1,200.9"); ("cost", "3e2")]%string] in
  (import_csv fs 1 None db).2
  = Ok (mkImportResponse $"/srv/homepass/homes.csv" 3).
Proof. vm_compute. reflexivity. Qed.

(** * Further properties *)

Import Handlers.

(** ** Image URL resolver *)

Lemma segments_join_plain (ps : list str) :
  Forall (fun p : str => p <> [] /\ "/"%char ∉ p) ps ->
  segments (join $"/" ps) = ps.
Proof.
  induction ps as [|p ps IH]; intros Hps; [done|].
  apply Forall_cons in Hps as [(Hne & Hns) Hps].
  destruct ps as [|q ps].
  - simpl. unfold segments. rewrite split_no_sep by done.
    rewrite filter_cons_True; [done|]. by destruct p.
  - change (join $"/" (p :: q :: ps)) with (p ++ "/"%char :: join $"/" (q :: ps)).
    unfold segments. rewrite split_app_sep by done.
    rewrite filter_cons_True by (by destruct p).
    f_equal. by apply IH.
Qed.

(** X1: a resolved URL is the base URL followed by one or more segments,
    none empty and none with a slash inside, each after a single slash:
    the segments of what follows the base are exactly those. *)
Theorem resolved_url_shape value url :
  _resolve_image_url value = Some url ->
  exists qs,
    qs <> [] /\
    Forall (fun q : str => q <> [] /\ "/"%char ∉ q) qs /\
    url = PICTURES_URL_BASE ++ $"/" ++ join $"/" qs /\
    segments (drop (length PICTURES_URL_BASE) url) = qs.
Proof.
  destruct value as [v|]; [|done].
  destruct (decide (v = [])) as [->|Hne]; [done|].
  rewrite resolve_unfold by done.
  destruct (candidate_spec v) as (Hr & Hc & _).
  rewrite segments_as_posix by done.
  assert (Hq : forall qs : list str,
            Forall (fun q : str => q <> [] /\ "/"%char ∉ q) qs ->
            segments (drop (length PICTURES_URL_BASE)
                        (PICTURES_URL_BASE ++ $"/" ++ join $"/" qs)) = qs).
  { intros qs Hqs. rewrite drop_app_length.
    change ($"/" ++ join $"/" qs) with ("/"%char :: join $"/" qs).
    rewrite segments_cons_slash. by apply segments_join_plain. }
  case_bool_decide as Hdot.
  - intros [= <-]. exists [ $"." ].
    assert (Hd : Forall (fun q : str => q <> [] /\ "/"%char ∉ q) [ $"." ]).
    { repeat constructor; [done|]. vm_compute. intros H.
      apply elem_of_cons in H as [H|H]; [discriminate H|].
      by apply elem_of_nil in H. }
    split_and!; [done|done|reflexivity|vm_compute; reflexivity].
  - pose proof (drop_pictures_components _ Hc) as Hps.
    destruct (drop_pictures (parts (candidate_of v))) as [|p ps]; [done|].
    intros Hres. exists (p :: ps).
    assert (Hu : url = PICTURES_URL_BASE ++ $"/" ++ join $"/" (p :: ps))
      by congruence.
    assert (Hd : Forall (fun q : str => q <> [] /\ "/"%char ∉ q) (p :: ps)).
    { eapply Forall_impl; [exact Hps|]. intros q (? & _ & ?). done. }
    rewrite Hu. split_and!; [done|done|done|by apply Hq].
Qed.

Lemma resolved_url_shape_witness :
  exists qs,
    qs <> [] /\
    Forall (fun q : str => q <> [] /\ "/"%char ∉ q) qs /\
    $"http://jumbo.galagen.net:2205/pictures/7/a.jpg"
      = PICTURES_URL_BASE ++ $"/" ++ join $"/" qs /\
    segments (drop (length PICTURES_URL_BASE)
                $"http://jumbo.galagen.net:2205/pictures/7/a.jpg") = qs.
Proof.
  apply (resolved_url_shape (Some $"//pictures//7/./a.jpg")).
  vm_compute. reflexivity.
Defined.

Lemma head_not_slash (v : str) :
  head v <> Some "/"%char -> forall s', v <> "/"%char :: s'.
Proof. intros H s' ->. by apply H. Qed.

Lemma Path_eta p : mkPath (root p) (parts p) = p.
Proof. by destruct p. Qed.

Lemma candidate_relative v :
  head v <> Some "/"%char ->
  candidate_of v = mkPath [] (filter (fun x => x <> $".") (segments v)).
Proof.
  intros Hv. destruct (Path_spec v) as (Hparts & _ & [[Hroot _]|[_ (s' & ->)]]).
  - unfold candidate_of, is_absolute. rewrite Hroot.
    change (truthy []) with false. cbv iota.
    rewrite <- Hparts, <- Hroot. symmetry. apply Path_eta.
  - by destruct Hv.
Qed.

(** X2: for a path that does not start with a slash, the resolver keeps the
    non-empty segments other than ".", in order (".." included), drops one
    leading "pictures" in any case, and joins the rest after the base URL;
    when only "." segments are there, the URL ends in "/.". *)
Theorem resolve_relative v :
  v <> [] -> head v <> Some "/"%char ->
  _resolve_image_url (Some v) =
    match filter (fun x => x <> $".") (segments v) with
    | [] => Some (PICTURES_URL_BASE ++ $"/.")
    | p :: ps =>
        match drop_pictures (p :: ps) with
        | [] => None
        | qs => Some (PICTURES_URL_BASE ++ $"/" ++ join $"/" qs)
        end
    end.
Proof.
  intros Hne Hv. rewrite resolve_unfold by done.
  destruct (candidate_spec v) as (Hr & Hc & _).
  rewrite segments_as_posix by done.
  rewrite (candidate_relative v Hv) in *. simpl root. simpl parts.
  destruct (filter _ (segments v)) as [|p ps].
  - rewrite bool_decide_eq_true_2 by done. reflexivity.
  - rewrite bool_decide_eq_false_2 by (by intros [_ ?]).
    by destruct (drop_pictures (p :: ps)).
Qed.

Lemma resolve_relative_witness :
  _resolve_image_url (Some $"Pictures/../7//./a.jpg")
  = Some $"http://jumbo.galagen.net:2205/pictures/../7/a.jpg".
Proof.
  rewrite (resolve_relative $"Pictures/../7//./a.jpg").
  - vm_compute. reflexivity.
  - discriminate.
  - vm_compute. discriminate.
Defined.

Lemma splitroot_single c s :
  c <> "/"%char -> splitroot ("/"%char :: c :: s) = ($"/", c :: s).
Proof.
  intros Hc. unfold splitroot. rewrite decide_True by done.
  cbn [lstrip_by]. rewrite bool_decide_eq_true_2 by done.
  rewrite bool_decide_eq_false_2 by done.
  replace (length ("/"%char :: c :: s) - length (c :: s))%nat with 1%nat
    by (simpl; lia).
  reflexivity.
Qed.

(** X3: a path under the pictures root resolves like the path relative to
    that root. *)
Theorem resolve_under_root rel :
  rel <> [] -> head rel <> Some "/"%char ->
  _resolve_image_url (Some ($"/srv/homepass/pictures/" ++ rel))
  = _resolve_image_url (Some rel).
Proof.
  intros Hne Hrel.
  set (v := $"/srv/homepass/pictures/" ++ rel).
  rewrite (resolve_unfold v) by done. rewrite (resolve_unfold rel) by done.
  enough (candidate_of v = candidate_of rel) as -> by done.
  rewrite (candidate_relative rel Hrel).
  assert (Hsplit : split "/" (drop 1 v)
                   = $"srv" :: $"homepass" :: $"pictures" :: split "/" rel).
  { unfold v. change (drop 1 ($"/srv/homepass/pictures/" ++ rel))
      with ($"srv" ++ "/"%char :: $"homepass" ++ "/"%char :: $"pictures" ++ "/"%char :: rel).
    rewrite !split_app_sep; [done|..]; vm_compute; intros H;
      repeat (apply elem_of_cons in H as [H|H]; [discriminate H|]);
      by apply elem_of_nil in H. }
  assert (HP : Path v
               = mkPath $"/" ([ $"srv"; $"homepass"; $"pictures" ]
                             ++ filter (fun x => x <> $".") (segments rel))).
  { unfold Path, v.
    change ($"/srv/homepass/pictures/" ++ rel)
      with ("/"%char :: "s"%char :: $"rv/homepass/pictures/" ++ rel).
    rewrite splitroot_single by done.
    change ("s"%char :: $"rv/homepass/pictures/" ++ rel) with (drop 1 v).
    rewrite Hsplit. f_equal.
    rewrite !filter_cons_True by (split; discriminate).
    simpl. do 3 f_equal. unfold segments. rewrite list_filter_filter.
    apply list_filter_iff. intros x. rewrite truthy_true. tauto. }
  unfold candidate_of. rewrite HP. reflexivity.
Qed.

Lemma resolve_under_root_witness :
  _resolve_image_url (Some ($"/srv/homepass/pictures/" ++ $"pictures/7/a.jpg"))
  = _resolve_image_url (Some $"pictures/7/a.jpg").
Proof.
  apply resolve_under_root.
  - discriminate.
  - vm_compute. discriminate.
Defined.

(** X4: an absolute path that does not lie under the pictures root is not
    cut down to a file name: all its segments other than "." go into the
    URL, after one leading "pictures" is dropped. *)
Theorem resolve_absolute_elsewhere v :
  head v = Some "/"%char ->
  ~ [ $"srv"; $"homepass"; $"pictures" ]
      `prefix_of` filter (fun x => x <> $".") (segments v) ->
  _resolve_image_url (Some v) =
    match drop_pictures (filter (fun x => x <> $".") (segments v)) with
    | [] => None
    | qs => Some (PICTURES_URL_BASE ++ $"/" ++ join $"/" qs)
    end.
Proof.
  intros Hv Hnot. assert (Hne : v <> []) by (by intros ->).
  rewrite resolve_unfold by done.
  destruct (Path_spec v) as (Hparts & Hcomp & Hroot).
  destruct (candidate_spec v) as (Hr & Hc & [Hcand | Hunder]).
  2:{ exfalso. apply Hnot. rewrite <- Hparts, Hunder. by eexists. }
  rewrite segments_as_posix by done. rewrite Hcand, Hparts.
  rewrite bool_decide_eq_false_2.
  - by destruct (drop_pictures _).
  - intros [Hroot0 _].
    destruct Hroot as [[_ Hrel] | [[Hx|Hx] _]]; [|by rewrite Hx in Hroot0..].
    destruct v as [|c v]; [done|]. injection Hv as ->. by eapply Hrel.
Qed.

Lemma resolve_absolute_elsewhere_witness :
  _resolve_image_url (Some $"//srv/homepass/../etc/passwd")
  = Some $"http://jumbo.galagen.net:2205/pictures/srv/homepass/../etc/passwd".
Proof.
  rewrite (resolve_absolute_elsewhere $"//srv/homepass/../etc/passwd").
  - vm_compute. reflexivity.
  - reflexivity.
  - vm_compute. intros [k Hk]. discriminate Hk.
Defined.

(** ** Users *)

(** X5: [ensure_user_exists] holds exactly when [get_user] returns a
    user, and that user has the identifier asked for; otherwise [get_user]
    answers 404. *)
Theorem user_exists_iff_get_user db uid :
  (ensure_user_exists db uid = true
   <-> exists u, get_user db uid = Ok u /\ u ∈ users db /\ user_id u = uid) /\
  (ensure_user_exists db uid = false
   <-> get_user db uid = Raise (HTTPException 404 $"User not found")).
Proof.
  unfold ensure_user_exists, get_user.
  destruct (filter _ (users db)) as [|u l] eqn:Hf.
  - assert (Hno : ~ Exists (fun u => user_id u = uid) (users db)).
    { rewrite Exists_exists. intros (u & Hin & Hid).
      assert (Hu : u ∈ filter (fun u => user_id u = uid) (users db))
        by (by apply list_elem_of_filter).
      rewrite Hf in Hu. by apply elem_of_nil in Hu. }
    rewrite bool_decide_eq_false_2 by done. split; split; try done.
    by intros (? & ? & _).
  - assert (Hu : u ∈ filter (fun u => user_id u = uid) (users db))
      by (rewrite Hf; apply list_elem_of_here).
    apply list_elem_of_filter in Hu as [Hid Hin].
    rewrite bool_decide_eq_true_2 by (apply Exists_exists; eauto).
    split; split; try done. intros _. eauto.
Qed.

(** ** Row enricher *)

Lemma set_images_twice row imgs imgs' :
  set_images (set_images row imgs) imgs' = set_images row imgs'.
Proof. reflexivity. Qed.

(** X6: the enricher touches nothing but [images]: the rows keep their
    number, order and columns; and enriching enriched rows changes
    nothing. *)
Theorem attach_images_frame db rows :
  Forall2 (fun row row' =>
             exists imgs, row' = set_images row imgs)
          rows (_attach_images db rows) /\
  _attach_images db (_attach_images db rows) = _attach_images db rows.
Proof.
  unfold _attach_images. split.
  - induction rows as [|row rows IH]; [constructor|].
    rewrite fmap_cons. constructor; [eauto|done].
  - rewrite <- list_fmap_compose. apply list_fmap_ext. intros i row _. simpl.
    by rewrite set_images_twice.
Qed.

Lemma length_omap_le {A B} (f : A -> option B) (l : list A) :
  (length (omap f l) <= length l)%nat.
Proof.
  induction l as [|x l IH]; [done|].
  cbn [omap list_omap length]. destruct (f x); cbn [length]; lia.
Qed.

(** X7: the images of a listing are resolved paths of pictures of that
    listing, one picture each at most. *)
Theorem attach_images_own_pictures db rows row' :
  row' ∈ _attach_images db rows ->
  exists imgs,
    row_images row' = Some imgs /\
    (length imgs
     <= length (filter (fun p => pic_apartment_id p = row_id row') (pictures db)))%nat /\
    Forall (fun url => exists p,
              p ∈ pictures db /\ pic_apartment_id p = row_id row' /\
              _resolve_image_url (pic_file_path p) = Some url) imgs.
Proof.
  unfold _attach_images. intros Hin.
  apply list_elem_of_fmap in Hin as (row & -> & _). simpl.
  rewrite omap_resolve_truthy. eexists. split; [done|].
  unfold _get_image_paths.
  set (own := filter (fun p => pic_apartment_id p = row_id row) (pictures db)).
  pose proof (merge_sort_Permutation picture_le own) as Hperm.
  split.
  - etrans; [apply length_omap_le|].
    rewrite length_fmap. by rewrite Hperm.
  - apply Forall_forall. intros url Hurl.
    apply list_elem_of_omap in Hurl as (path & Hpath & Hres).
    apply list_elem_of_fmap in Hpath as (p & -> & Hp).
    rewrite Hperm in Hp. apply list_elem_of_filter in Hp as [Hid Hp].
    eauto.
Qed.

Lemma attach_images_own_pictures_witness :
  exists imgs,
    row_images (set_images row_seven
                  [ $"http://jumbo.galagen.net:2205/pictures/7/a.jpg";
                    $"http://jumbo.galagen.net:2205/pictures/7/b.jpg" ]) = Some imgs /\
    (length imgs
     <= length (filter (fun p => pic_apartment_id p = 7%Z) (pictures db_pictures)))%nat /\
    Forall (fun url => exists p,
              p ∈ pictures db_pictures /\ pic_apartment_id p = 7 /\
              _resolve_image_url (pic_file_path p) = Some url) imgs.
Proof.
  apply (attach_images_own_pictures db_pictures [row_seven]).
  vm_compute. apply list_elem_of_here.
Defined.

(** In a list sorted primary-first, the first path that resolves belongs
    to a primary picture as soon as some primary picture resolves. *)
Lemma first_resolved_is_primary (l : list Picture) url rest :
  StronglySorted picture_le l ->
  omap _resolve_image_url (pic_file_path <$> l) = url :: rest ->
  (exists p, p ∈ l /\ pic_is_primary p = true /\
             is_Some (_resolve_image_url (pic_file_path p))) ->
  exists p, p ∈ l /\ pic_is_primary p = true /\
            _resolve_image_url (pic_file_path p) = Some url.
Proof.
  induction 1 as [|a l Hl IH Hall]; intros Homap (p & Hp & Hprim & Hres).
  - by apply elem_of_nil in Hp.
  - rewrite fmap_cons in Homap. cbn [omap list_omap] in Homap.
    destruct (_resolve_image_url (pic_file_path a)) as [u|] eqn:Ha.
    + injection Homap as -> _. exists a. split; [apply list_elem_of_here|].
      split; [|done].
      apply elem_of_cons in Hp as [-> | Hp]; [done|].
      rewrite Forall_forall in Hall. specialize (Hall p Hp).
      unfold picture_le, picture_leb in Hall. rewrite Hprim in Hall.
      by destruct (pic_is_primary a).
    + apply elem_of_cons in Hp as [-> | Hp].
      { rewrite Ha in Hres. by destruct Hres. }
      destruct (IH Homap) as (q & Hq & ? & ?); [eauto|].
      exists q. split; [by apply list_elem_of_further|done].
Qed.

(** X8: when a primary picture of a listing has a path that resolves, the
    first image of the listing is the URL of a primary picture. *)
Theorem attach_images_primary_first db rows row' url rest p :
  row' ∈ _attach_images db rows ->
  row_images row' = Some (url :: rest) ->
  p ∈ pictures db -> pic_apartment_id p = row_id row' ->
  pic_is_primary p = true ->
  is_Some (_resolve_image_url (pic_file_path p)) ->
  exists q,
    q ∈ pictures db /\ pic_apartment_id q = row_id row' /\
    pic_is_primary q = true /\
    _resolve_image_url (pic_file_path q) = Some url.
Proof.
  unfold _attach_images. intros Hin Himgs Hp Hid Hprim Hres.
  apply list_elem_of_fmap in Hin as (row & -> & _). simpl in *.
  rewrite omap_resolve_truthy in Himgs. injection Himgs as Himgs.
  unfold _get_image_paths in Himgs.
  set (own := filter (fun p => pic_apartment_id p = row_id row) (pictures db)) in *.
  pose proof (merge_sort_Permutation picture_le own) as Hperm.
  destruct (first_resolved_is_primary (merge_sort picture_le own) url rest)
    as (q & Hq & Hqp & Hqr); [by apply StronglySorted_merge_sort; apply _|done| |].
  - exists p. split_and!; try done. rewrite Hperm.
    by apply list_elem_of_filter.
  - rewrite Hperm in Hq. apply list_elem_of_filter in Hq as [Hqid Hq].
    exists q. by split_and!.
Qed.

Lemma attach_images_primary_first_witness :
  exists q,
    q ∈ pictures db_pictures /\ pic_apartment_id q = 7 /\
    pic_is_primary q = true /\
    _resolve_image_url (pic_file_path q)
    = Some $"http://jumbo.galagen.net:2205/pictures/7/a.jpg".
Proof.
  apply (attach_images_primary_first db_pictures [row_seven]
           (set_images row_seven
              [ $"http://jumbo.galagen.net:2205/pictures/7/a.jpg";
                $"http://jumbo.galagen.net:2205/pictures/7/b.jpg" ])
           $"http://jumbo.galagen.net:2205/pictures/7/a.jpg"
           [ $"http://jumbo.galagen.net:2205/pictures/7/b.jpg" ]
           (mkPicture 2 7 (Some $"/srv/homepass/pictures/7/a.jpg") true)).
  - vm_compute. apply list_elem_of_here.
  - reflexivity.
  - unfold db_pictures. simpl. apply list_elem_of_further, list_elem_of_here.
  - reflexivity.
  - reflexivity.
  - vm_compute. eauto.
Defined.

(** ** The import loop *)

Lemma row_step_overflowing uid row k db :
  overflowing_row row -> row_step uid row k db = (db, Raise OverflowError).
Proof.
  intros (Hn & Ha & Hf). unfold row_step.
  apply truthy_true in Hn, Ha. rewrite Hn, Ha. simpl. by rewrite Hf.
Qed.

Lemma for_rows_ok_no_overflow uid rows :
  forall k db db' k',
  for_rows uid rows k db = (db', Ok k') ->
  Forall (fun row => ~ overflowing_row row) rows.
Proof.
  induction rows as [|row rows IH]; intros k db db' k' Hrun; [constructor|].
  rewrite for_rows_cons in Hrun.
  destruct (row_step uid row k db) as [dba [ka|e]] eqn:Hstep; [|done].
  constructor.
  - intros Hov. by rewrite (row_step_overflowing _ _ _ _ Hov) in Hstep.
  - by eapply IH.
Qed.

(** X9: when a row of the file has a name, an address and an area that
    [float] reads as an infinity, the import does not return a count but
    raises, whatever else the file and the store hold. *)
Theorem import_needs_finite_areas (fs : FileSystem) uid csv_path db rows row :
  fs (as_posix (import_path csv_path)) = Some rows ->
  row ∈ rows -> overflowing_row row ->
  exists e, (import_csv fs uid csv_path db).2 = Raise e.
Proof.
  intros Hfs Hin Hov.
  destruct (import_csv fs uid csv_path db) as [db' [resp|e]] eqn:Hrun;
    [exfalso|by exists e].
  destruct (import_csv_ok _ _ _ _ _ _ Hrun)
    as (path & rows' & Hpath & _ & Hfs' & _ & Hloop & _).
  fold (import_path csv_path) in Hpath. subst path.
  rewrite Hfs in Hfs'. injection Hfs' as <-.
  pose proof (for_rows_ok_no_overflow _ _ _ _ _ _ Hloop) as Hall.
  rewrite Forall_forall in Hall. by apply (Hall row).
Qed.

Lemma import_needs_finite_areas_witness :
  exists e, (import_csv fs_infinite 1 None db_one_user).2 = Raise e.
Proof.
  apply (import_needs_finite_areas fs_infinite 1 None db_one_user
           [row_loft; row_infinite_area] row_infinite_area).
  - reflexivity.
  - apply (bool_decide_unpack _). vm_compute. exact I.
  - split_and!.
    + vm_compute. discriminate.
    + vm_compute. discriminate.
    + vm_compute. reflexivity.
Defined.

(** X10: whatever it returns, [import_csv] leaves the users and the
    pictures as they were and keeps every stored listing in its place; when
    it raises, the committed listings are the ones it started from. *)
Theorem import_frame fs uid csv_path db :
  let db' := (import_csv fs uid csv_path db).1 in
  users db' = users db /\ pictures db' = pictures db /\
  apartaments db `prefix_of` apartaments db' /\
  (forall e, (import_csv fs uid csv_path db).2 = Raise e ->
     apartaments db' = apartaments db).
Proof.
  unfold import_csv. fold (import_path csv_path).
  destruct (negb (ensure_user_exists db uid)); simpl.
  { split_and!; done. }
  destruct (negb (bool_decide _)); simpl.
  { split_and!; done. }
  destruct (insert_apartments_from_csv fs (import_path csv_path) uid db)
    as [db' [n|e]] eqn:Hrun; simpl.
  2:{ split_and!; done. }
  destruct (insert_from_csv_loop _ _ _ _ _ _ Hrun)
    as [(_ & _ & ?) | (rows & read & r' & _ & _ & Hloop & _)]; [done|].
  destruct (for_rows_delta _ _ _ _ _ _ Hloop) as (new & Hap & Hu & Hp & _).
  split_and!; try done. rewrite Hap. by apply prefix_app_r.
Qed.

(** The listings a run of the loop adds come in the order of their rows. *)
Lemma for_rows_order uid rows :
  forall k db db' r,
  for_rows uid rows k db = (db', r) ->
  exists new,
    apartaments db' = apartaments db ++ new /\
    (key_of <$> new) `sublist_of` (row_key uid <$> rows).
Proof.
  induction rows as [|row rows IH]; intros k db db' r Hrun.
  - injection Hrun as <- <-. exists []. by rewrite app_nil_r.
  - rewrite for_rows_cons in Hrun.
    pose proof (row_step_spec uid row k db) as Hout.
    outcome_cases Hout; rewrite <- Heq in Hrun.
    1,2,4,6: destruct (IH _ _ _ _ Hrun) as (new & Hap & Hsub);
      exists new; split; [done|]; rewrite fmap_cons; by apply sublist_cons.
    1,2,3,4: injection Hrun as <- <-; exists []; rewrite app_nil_r;
      (split; [by try destruct drawn|]); apply sublist_nil_l.
    + destruct (IH _ _ _ _ Hrun) as (new & Hap & Hsub).
      exists (listing_of db uid row area cost :: new). simpl in Hap.
      split; [by rewrite Hap, <- app_assoc|].
      rewrite !fmap_cons. by apply sublist_skip.
Qed.

(** X11: the count an import returns is the number of listings it added;
    they are at most as many as the rows of the file, and their keys come
    in the order of the rows. *)
Theorem import_count_and_order (fs : FileSystem) uid csv_path db db' resp rows :
  fs (as_posix (import_path csv_path)) = Some rows ->
  import_csv fs uid csv_path db = (db', Ok resp) ->
  exists new,
    apartaments db' = apartaments db ++ new /\
    inserted_apartments resp = Z.of_nat (length new) /\
    (length new <= length rows)%nat /\
    (key_of <$> new) `sublist_of` (row_key uid <$> rows).
Proof.
  intros Hfs Hrun.
  destruct (import_csv_ok _ _ _ _ _ _ Hrun)
    as (path & rows' & Hpath & _ & Hfs' & _ & Hloop & _).
  fold (import_path csv_path) in Hpath. subst path.
  rewrite Hfs in Hfs'. injection Hfs' as <-.
  destruct (for_rows_delta _ _ _ _ _ _ Hloop) as (new & Hap & _ & _ & _ & _ & _ & Hcount).
  destruct (for_rows_order _ _ _ _ _ _ Hloop) as (new' & Hap' & Hsub).
  rewrite Hap in Hap'. apply app_inv_head in Hap'. subst new'.
  exists new. split_and!; try done.
  - rewrite (Hcount _ eq_refl). lia.
  - apply sublist_length in Hsub. by rewrite !length_fmap in Hsub.
Qed.

Lemma import_count_and_order_witness :
  exists new,
    apartaments (import_csv fs_reimport 1 None db_one_user).1
      = apartaments db_one_user ++ new /\
    2 = Z.of_nat (length new) /\
    (length new <= 4)%nat /\
    (key_of <$> new) `sublist_of`
      (row_key 1 <$> [row_loft; row_no_area; row_loft_again; row_negative_area]).
Proof.
  apply (import_count_and_order fs_reimport 1 None db_one_user
           (import_csv fs_reimport 1 None db_one_user).1
           (mkImportResponse $"/srv/homepass/homes.csv" 2)
           [row_loft; row_no_area; row_loft_again; row_negative_area]).
  - reflexivity.
  - vm_compute. reflexivity.
Defined.

(** Every row of an imported file that passes the checks has its listing
    afterwards. *)
Lemma valid_row_has_listing (fs : FileSystem) uid csv_path db db' resp rows row :
  fs (as_posix (import_path csv_path)) = Some rows ->
  import_csv fs uid csv_path db = (db', Ok resp) ->
  row ∈ rows -> valid_row row ->
  Exists (same_key (name_of row) (address_of row) uid) (apartaments db').
Proof.
  intros Hfs Hrun Hin (Hvn & Hva & (area0 & Hvar) & (cost0 & Hvco)).
  destruct (import_csv_ok _ _ _ _ _ _ Hrun)
    as (path & rows' & Hpath & _ & Hfs' & _ & Hloop & _).
  fold (import_path csv_path) in Hpath. subst path.
  rewrite Hfs in Hfs'. injection Hfs' as <-.
  pose proof (for_rows_settled_rows _ _ _ _ _ _ Hloop) as Hall.
  rewrite Forall_forall in Hall. specialize (Hall row Hin 0).
  pose proof (row_step_spec uid row 0 db') as Hout. rewrite Hall in Hout.
  outcome_cases Hout; try congruence.
  destruct Hb; congruence.
Qed.

(** X12: after an import that returned, every row of the file that passes
    the checks has a listing with its trimmed name and address for the
    importing owner. *)
Theorem import_complete (fs : FileSystem) uid csv_path db db' resp rows row :
  fs (as_posix (import_path csv_path)) = Some rows ->
  import_csv fs uid csv_path db = (db', Ok resp) ->
  row ∈ rows -> valid_row row ->
  Exists (same_key (name_of row) (address_of row) uid) (apartaments db').
Proof. apply valid_row_has_listing. Qed.

Lemma import_complete_witness :
  Exists (same_key (name_of row_loft_again) (address_of row_loft_again) 1)
         (apartaments (import_csv fs_reimport 1 None db_one_user).1).
Proof.
  apply (import_complete fs_reimport 1 None db_one_user
           (import_csv fs_reimport 1 None db_one_user).1
           (mkImportResponse $"/srv/homepass/homes.csv" 2)
           [row_loft; row_no_area; row_loft_again; row_negative_area]).
  - reflexivity.
  - vm_compute. reflexivity.
  - do 2 apply list_elem_of_further. apply list_elem_of_here.
  - split_and!.
    + vm_compute. discriminate.
    + vm_compute. discriminate.
    + eexists. vm_compute. reflexivity.
    + eexists. vm_compute. reflexivity.
Defined.

(** X13: a row that passes the checks, whose name and address no listing
    of the importing owner has, and whose listing the store takes, is
    inserted and counted, whatever other owners hold; the new listing is
    put after the stored ones. *)
Theorem fresh_row_inserted uid row k db area cost :
  name_of row <> [] -> address_of row <> [] ->
  int_float (area_raw_of row) = Ok area ->
  PyDecimal.of_str (price_raw_of row) = Ok cost ->
  (forall a, a ∈ apartaments db ->
     apt_name a = name_of row -> apt_adress a = address_of row ->
     apt_user_id a <> uid) ->
  storable db uid row area cost ->
  row_step uid row k db
  = (add_listing db (listing_of db uid row area cost), Ok (k + 1)).
Proof.
  intros Hvn Hva Hvar Hvco Hfresh Hst.
  apply row_step_inserts; try done.
  intros Hex0. apply Exists_exists in Hex0 as (a & Hin & Hn' & Ha' & Hu').
  by apply (Hfresh a Hin).
Qed.

Lemma fresh_row_inserted_witness :
  row_step 1 row_loft 0 db_two_owners
  = (add_listing db_two_owners
       (listing_of db_two_owners 1 row_loft 45 (PyDecimal.Finite false 123450 (-2))),
     Ok (0 + 1)).
Proof.
  apply (fresh_row_inserted 1 row_loft 0 db_two_owners).
  - vm_compute. discriminate.
  - vm_compute. discriminate.
  - vm_compute. reflexivity.
  - vm_compute. reflexivity.
  - intros a Hin. unfold db_two_owners in Hin. simpl in Hin.
    repeat (apply elem_of_cons in Hin as [-> | Hin];
            [vm_compute; intros; discriminate|]).
    by apply elem_of_nil in Hin.
  - split_and!; vm_compute; reflexivity.
Defined.

(** ** The pictures folder *)

Section Pictures.
Context {W : Type} `{FileOps W}.

(** X14: [ensure_pictures_available] never raises [FileNotFoundError], and
    it leaves the file system alone when the pictures root exists or the
    local pictures folder is missing. *)
Theorem ensure_pictures_never_not_found (w : W) :
  (ensure_pictures_available w).2 <> Throw (PyExn FileNotFoundError) /\
  (path_exists w PICTURES_ROOT = true \/ path_exists w PICTURES_SOURCE = false ->
   ensure_pictures_available w = (w, Return tt)).
Proof.
  unfold ensure_pictures_available, copy_pictures_folder. split.
  - destruct (path_exists w PICTURES_ROOT); [done|].
    destruct (negb (path_exists w PICTURES_SOURCE)); [done|].
    destruct (mkdir_parents PICTURES_DEST_ROOT w) as [w1 [[]|e]].
    + destruct (copytree _ _ w1) as [w2 [[]|e]]; [done|].
      destruct e as [[]| |]; done.
    + destruct e as [[]| |]; done.
  - intros [-> | Hsrc]; [done|].
    destruct (path_exists w PICTURES_ROOT); [done|]. by rewrite Hsrc.
Qed.

(** X15: [copy_pictures_folder] copies to the very directory whose
    existence [ensure_pictures_available] tests: once a copy succeeded (and
    left its destination in place), the next call does nothing. *)
Theorem copy_is_not_repeated (w w1 : W) (p : PurePosixPath) :
  (forall src dst w0 w0', copytree src dst w0 = (w0', Return tt) ->
                          path_exists w0' dst = true) ->
  copy_pictures_folder PICTURES_SOURCE PICTURES_DEST_ROOT w = (w1, Return p) ->
  p = PICTURES_ROOT /\ ensure_pictures_available w1 = (w1, Return tt).
Proof.
  intros Hcopy. unfold copy_pictures_folder.
  destruct (negb (path_exists w PICTURES_SOURCE)); [done|].
  destruct (mkdir_parents PICTURES_DEST_ROOT w) as [w0 [[]|e]]; [|done].
  destruct (copytree _ _ w0) as [w2 [[]|e]] eqn:Hc; [|done].
  intros [= <- <-]. split; [done|].
  unfold ensure_pictures_available.
  change (truediv PICTURES_DEST_ROOT $"pictures") with PICTURES_ROOT in Hc.
  by rewrite (Hcopy _ _ _ _ Hc).
Qed.

(** X16: when the pictures root is missing and the copy fails with
    anything but [FileNotFoundError], both read handlers fail with that
    error before they query the store. *)
Theorem read_handlers_fail_on_copy_error (w w1 : W) e uid n db :
  path_exists w PICTURES_ROOT = false ->
  copy_pictures_folder PICTURES_SOURCE PICTURES_DEST_ROOT w = (w1, Throw e) ->
  e <> PyExn FileNotFoundError ->
  get_houses n w db = (w1, Throw e) /\
  get_user_houses uid n w db = (w1, Throw e).
Proof.
  intros Hroot Hcopy He.
  assert (Hens : ensure_pictures_available w = (w1, Throw e)).
  { unfold ensure_pictures_available. rewrite Hroot, Hcopy.
    destruct e as [[]| |]; done. }
  unfold get_houses, get_user_houses. by rewrite Hens.
Qed.

End Pictures.

Lemma ensure_pictures_never_not_found_witness :
  ensure_pictures_available [ $"/srv/homepass/pictures" ]
  = ([ $"/srv/homepass/pictures" ], Return tt).
Proof.
  apply (ensure_pictures_never_not_found [ $"/srv/homepass/pictures" ]).
  left. vm_compute. reflexivity.
Defined.

Lemma copy_is_not_repeated_witness :
  PICTURES_ROOT = PICTURES_ROOT /\
  ensure_pictures_available [ $"/srv/homepass/pictures"; $"/srv/homepass"; $"pictures" ]
  = ([ $"/srv/homepass/pictures"; $"/srv/homepass"; $"pictures" ], Return tt).
Proof.
  apply (copy_is_not_repeated [ $"pictures" ]).
  - intros src dst w0 w0'. unfold copytree, path_exists. simpl.
    case_bool_decide; [|done]. intros [= <-].
    apply bool_decide_eq_true_2. apply list_elem_of_here.
  - vm_compute. reflexivity.
Defined.

Lemma read_handlers_fail_on_copy_error_witness :
  @get_houses _ read_only_ops None [ $"pictures" ] db_two_owners
    = ([ $"pictures" ], Throw (OSError "PermissionError")) /\
  @get_user_houses _ read_only_ops 1 None [ $"pictures" ] db_two_owners
    = ([ $"pictures" ], Throw (OSError "PermissionError")).
Proof.
  apply (@read_handlers_fail_on_copy_error _ read_only_ops).
  - vm_compute. reflexivity.
  - vm_compute. reflexivity.
  - discriminate.
Defined.

(** ** The read handlers *)

#[local] Instance apartment_le_trans : Transitive apartment_le.
Proof. intros a b c. unfold apartment_le. lia. Qed.

#[local] Instance apartment_le_total : Total apartment_le.
Proof. intros a b. unfold apartment_le. lia. Qed.

Lemma limit_in_range {A} (n : Z) (rows : list A) :
  0 <= n <= 2 ^ 63 - 1 -> limit n rows = Return (take (Z.to_nat n) rows).
Proof.
  intros Hn. unfold limit.
  destruct (n <? 0) eqn:H1; [apply Z.ltb_lt in H1; lia|].
  destruct (2 ^ 63 - 1 <? n) eqn:H2; [apply Z.ltb_lt in H2; lia|]. done.
Qed.

Lemma attach_images_ids db rows :
  row_id <$> _attach_images db rows = row_id <$> rows.
Proof.
  unfold _attach_images. rewrite <- list_fmap_compose. by apply list_fmap_ext.
Qed.

Section ReadHandlers.
Context {W : Type} `{FileOps W}.

(** X17: when the pictures are in place and [n] (10 when not given) is a
    count the server accepts, [get_houses] returns the enriched rows of the
    first [n] listings in ascending order of identifier, all of them when
    there are fewer. *)
Theorem get_houses_first_n (n : option Z) (w w' : W) (db : Database) :
  ensure_pictures_available w = (w', Return tt) ->
  0 <= default 10 n <= 2 ^ 63 - 1 ->
  exists kept rest,
    kept ++ rest ≡ₚ apartaments db /\
    StronglySorted apartment_le (kept ++ rest) /\
    length kept = Nat.min (Z.to_nat (default 10 n)) (length (apartaments db)) /\
    get_houses n w db = (w', Return (_attach_images db (to_row <$> kept))) /\
    row_id <$> _attach_images db (to_row <$> kept) = apt_id <$> kept.
Proof.
  intros Hens Hn.
  set (sorted := merge_sort apartment_le (apartaments db)).
  set (k := Z.to_nat (default 10 n)).
  pose proof (merge_sort_Permutation apartment_le (apartaments db)) as Hperm.
  exists (take k sorted), (drop k sorted). rewrite take_drop. split_and!.
  - done.
  - apply StronglySorted_merge_sort; apply _.
  - rewrite length_take. unfold sorted. by rewrite Hperm.
  - unfold get_houses. rewrite Hens, limit_in_range by done.
    by rewrite fmap_take.
  - rewrite attach_images_ids, <- list_fmap_compose. by apply list_fmap_ext.
Qed.

(** X18: [get_user_houses] returns rows of listings of the given owner
    only, and an empty list, not a NotFound, when the owner has none (the
    users are not looked at). *)
Theorem get_user_houses_only_owner (uid : Z) (n : option Z) (w w' : W)
    (db : Database) :
  ensure_pictures_available w = (w', Return tt) ->
  0 <= default 10 n <= 2 ^ 63 - 1 ->
  exists rows,
    get_user_houses uid n w db = (w', Return rows) /\
    Forall (fun r => exists a,
              a ∈ apartaments db /\ apt_user_id a = uid /\
              row_id r = apt_id a /\ row_name r = apt_name a /\
              row_address r = apt_adress a) rows /\
    ((forall a, a ∈ apartaments db -> apt_user_id a <> uid) -> rows = []).
Proof.
  intros Hens Hn. unfold get_user_houses.
  rewrite Hens, limit_in_range by done.
  set (own := filter (fun a => apt_user_id a = uid) (apartaments db)).
  pose proof (merge_sort_Permutation apartment_le own) as Hperm.
  eexists. split; [done|]. split.
  - apply Forall_forall. intros r Hr. unfold _attach_images in Hr.
    apply list_elem_of_fmap in Hr as (r0 & -> & Hr0).
    apply elem_of_take in Hr0 as (i & Hi & _).
    apply list_elem_of_lookup_2 in Hi.
    apply list_elem_of_fmap in Hi as (a & -> & Ha).
    rewrite Hperm in Ha. apply list_elem_of_filter in Ha as [Hu Ha].
    exists a. by split_and!.
  - intros Hnone.
    assert (own = []) as Hown.
    { apply elem_of_nil_inv. intros a Ha.
      apply list_elem_of_filter in Ha as [Hu Ha]. by apply (Hnone a). }
    clear Hperm. subst own. rewrite Hown. cbn [merge_sort merge_sort_aux merge_stack fmap list_fmap].
    by rewrite take_nil.
Qed.

End ReadHandlers.

Lemma get_houses_first_n_witness :
  exists kept rest,
    kept ++ rest ≡ₚ apartaments db_two_owners /\
    StronglySorted apartment_le (kept ++ rest) /\
    length kept = Nat.min (Z.to_nat (default 10 (Some 2)))
                          (length (apartaments db_two_owners)) /\
    get_houses (Some 2) [ $"/srv/homepass/pictures" ] db_two_owners
    = ([ $"/srv/homepass/pictures" ],
       Return (_attach_images db_two_owners (to_row <$> kept))) /\
    row_id <$> _attach_images db_two_owners (to_row <$> kept) = apt_id <$> kept.
Proof.
  apply (get_houses_first_n (Some 2) [ $"/srv/homepass/pictures" ]).
  - vm_compute. reflexivity.
  - simpl. lia.
Defined.

Lemma get_user_houses_only_owner_witness :
  exists rows,
    get_user_houses 1 None [ $"/srv/homepass/pictures" ] db_two_owners
    = ([ $"/srv/homepass/pictures" ], Return rows) /\
    Forall (fun r => exists a,
              a ∈ apartaments db_two_owners /\ apt_user_id a = 1 /\
              row_id r = apt_id a /\ row_name r = apt_name a /\
              row_address r = apt_adress a) rows /\
    ((forall a, a ∈ apartaments db_two_owners -> apt_user_id a <> 1) -> rows = []).
Proof.
  apply (get_user_houses_only_owner 1 None [ $"/srv/homepass/pictures" ]).
  - vm_compute. reflexivity.
  - simpl. lia.
Defined.

Example get_houses_ex :
  (fun r => (row_id r, row_images r)) <$>
    match (get_houses (Some 2) [ $"/srv/homepass/pictures" ] db_two_owners).2 with
    | Return rows => rows
    | Throw _ => []
    end
  = [ (3, Some [ $"http://jumbo.galagen.net:2205/pictures/3/a.jpg";
                 $"http://jumbo.galagen.net:2205/pictures/3/b.jpg" ]);
      (4, Some []) ].
Proof. vm_compute. reflexivity. Qed.

Section RoundTrip.
Context {W : Type} `{FileOps W}.

(** X19: after an import that returned, a row of the file that passes the
    checks is listed by [get_user_houses] for the importing owner, under
    its trimmed name and address, as soon as [n] covers the owner's
    listings. *)
Theorem imported_row_is_listed (fs : FileSystem) uid csv_path db db' resp rows row
    (n : Z) (w w' : W) :
  fs (as_posix (import_path csv_path)) = Some rows ->
  import_csv fs uid csv_path db = (db', Ok resp) ->
  row ∈ rows -> valid_row row ->
  ensure_pictures_available w = (w', Return tt) ->
  0 <= n <= 2 ^ 63 - 1 ->
  (length (filter (fun a => apt_user_id a = uid) (apartaments db')) <= Z.to_nat n)%nat ->
  exists out r,
    get_user_houses uid (Some n) w db' = (w', Return out) /\
    r ∈ out /\ row_name r = name_of row /\ row_address r = address_of row.
Proof.
  intros Hfs Hrun Hin Hvalid Hens Hn Hlen.
  pose proof (valid_row_has_listing _ _ _ _ _ _ _ _ Hfs Hrun Hin Hvalid) as Hex.
  apply Exists_exists in Hex as (a & Ha & Hname & Haddr & Hu).
  unfold get_user_houses. rewrite Hens. simpl default.
  rewrite limit_in_range by done.
  set (own := filter (fun a => apt_user_id a = uid) (apartaments db')) in *.
  pose proof (merge_sort_Permutation apartment_le own) as Hperm.
  rewrite take_ge by (by rewrite length_fmap, Hperm).
  eexists _, (set_images (to_row a) _). split; [done|]. split; [|done].
  unfold _attach_images. apply list_elem_of_fmap. exists (to_row a).
  split; [done|]. apply list_elem_of_fmap. exists a. split; [done|].
  rewrite Hperm. by apply list_elem_of_filter.
Qed.

End RoundTrip.

Lemma imported_row_is_listed_witness :
  exists out r,
    get_user_houses 1 (Some 10) [ $"/srv/homepass/pictures" ]
      (import_csv fs_reimport 1 None db_one_user).1
    = ([ $"/srv/homepass/pictures" ], Return out) /\
    r ∈ out /\ row_name r = name_of row_loft_again /\
    row_address r = address_of row_loft_again.
Proof.
  apply (imported_row_is_listed fs_reimport 1 None db_one_user
           (import_csv fs_reimport 1 None db_one_user).1
           (mkImportResponse $"/srv/homepass/homes.csv" 2)
           [row_loft; row_no_area; row_loft_again; row_negative_area]
           row_loft_again 10 [ $"/srv/homepass/pictures" ]).
  - reflexivity.
  - vm_compute. reflexivity.
  - do 2 apply list_elem_of_further. apply list_elem_of_here.
  - split_and!.
    + vm_compute. discriminate.
    + vm_compute. discriminate.
    + eexists. vm_compute. reflexivity.
    + eexists. vm_compute. reflexivity.
  - vm_compute. reflexivity.
  - lia.
  - vm_compute. lia.
Defined.
